(** * job-grazer: the grey-out pipeline of [src/app/api/send/route.ts]

    The development embeds two pieces of the repository:
    - the [POST] handler of the API route (sheet resolution, header lookup,
      column read, matching loop, batched formatting call), and
    - the [extractProjectIDs] callback of the upload page, which turns the
      rows Papa Parse hands over into the list of project IDs.

    JavaScript strings are sequences of UTF-16 code units; remote calls are
    recorded in a trace and may throw; the [try]/[catch] of the handler is
    an exception monad with that trace as its state. *)

From Stdlib Require Import String Ascii DecimalString.
From Stdlib Require Import List NArith ZArith QArith Lia Bool Arith.
Import ListNotations.
Close Scope Q_scope.

Set Implicit Arguments.

(* ================================================================== *)
(** ** JavaScript values and string primitives *)
(* ================================================================== *)

Module Js.

(** A JavaScript string: its UTF-16 code units. *)
Definition jsstring := list N.

(** ASCII literals of the source, as code units. *)
Definition lit (s : string) : jsstring :=
  map N_of_ascii (list_ascii_of_string s).

(** The double quote, which the source writes inside template literals. *)
Definition dquote : jsstring := [34%N].

Fixpoint eqb (a b : jsstring) : bool :=
  match a, b with
  | [], [] => true
  | x :: a', y :: b' => N.eqb x y && eqb a' b'
  | _, _ => false
  end.

(** [WhiteSpace] and [LineTerminator] code units, the ones
    [String.prototype.trim] strips. *)
Definition isWhiteSpace (c : N) : bool :=
  (N.leb 9 c && N.leb c 13)            (* TAB LF VT FF CR *)
  || N.eqb c 32 || N.eqb c 160         (* SP, NBSP *)
  || N.eqb c 5760                      (* U+1680 *)
  || (N.leb 8192 c && N.leb c 8202)    (* U+2000 .. U+200A *)
  || N.eqb c 8232 || N.eqb c 8233      (* LS, PS *)
  || N.eqb c 8239 || N.eqb c 8287      (* U+202F, U+205F *)
  || N.eqb c 12288 || N.eqb c 65279.   (* U+3000, BOM *)

Fixpoint trimStart (s : jsstring) : jsstring :=
  match s with
  | [] => []
  | c :: s' => if isWhiteSpace c then trimStart s' else s
  end.

Definition trimEnd (s : jsstring) : jsstring := rev (trimStart (rev s)).

(** [s.trim()] *)
Definition trim (s : jsstring) : jsstring := trimEnd (trimStart s).

(** Truthiness of a string: the empty string is the only falsy one. *)
Definition truthy (s : jsstring) : bool :=
  match s with [] => false | _ :: _ => true end.

(** [arr.includes(x)] on an array of strings. *)
Fixpoint includes (arr : list jsstring) (x : jsstring) : bool :=
  match arr with
  | [] => false
  | y :: arr' => eqb y x || includes arr' x
  end.

(** [String.fromCharCode(n)]: the argument goes through [ToUint16]. *)
Definition fromCharCode (n : N) : jsstring := [(n mod 65536)%N].

(** [`${n}`] for an array length. *)
Definition numberToString (n : nat) : jsstring :=
  lit (NilEmpty.string_of_uint (Nat.to_uint n)).

(** A property that may be [undefined], [null] or hold a value. *)
Inductive Nullable (A : Type) : Type :=
| JUndefined : Nullable A
| JNull : Nullable A
| JVal : A -> Nullable A.
Arguments JUndefined {A}.
Arguments JNull {A}.

(** What a [throw] carries, as far as the handler looks at it:
    an [Error] with its message, or some other value. *)
Inductive Thrown : Type :=
| ThrownError (message : jsstring)
| ThrownOther.

Inductive Result (A : Type) : Type :=
| Ok : A -> Result A
| Throw : Thrown -> Result A.
Arguments Throw {A}.

(** Message of the [TypeError] raised by a method call on [undefined]
    ([cell.trim()] without optional chaining), as Node.js words it. *)
Definition trimOfUndefined : Thrown :=
  ThrownError (lit "Cannot read properties of undefined (reading 'trim')").

End Js.
Import Js.

(* ================================================================== *)
(** ** The spreadsheet store as the handler sees it *)
(* ================================================================== *)

Module Sheets.

(** [sheets.properties.title, sheets.properties.sheetId] *)
Record SheetProperties : Type := {
  title : Nullable jsstring;
  sheetId : Nullable Z
}.

Record Sheet : Type := { properties : option SheetProperties }.

(** A cell of a value range; [None] is a nullish entry.  Values are read
    with the default rendering, which yields strings. *)
Definition Cell := option jsstring.

(** A row of a value range; [None] is a nullish entry of [values]. *)
Definition Row := option (list Cell).

Record Color : Type := { red : Q; green : Q; blue : Q }.

(** [GridRange]; an omitted index is [None]. *)
Record GridRange : Type := {
  rangeSheetId : Nullable Z;
  startRowIndex : option Z;
  endRowIndex : option Z;
  startColumnIndex : option Z;
  endColumnIndex : option Z
}.

(** [{ repeatCell: { range, cell: { userEnteredFormat:
      { backgroundColor } }, fields } }] *)
Record UpdateRequest : Type := {
  range : GridRange;
  backgroundColor : Color;
  fields : jsstring
}.

(** The remote calls the handler issues. *)
Inductive Call : Type :=
| CSpreadsheetsGet (spreadsheetId : jsstring)
| CValuesGet (spreadsheetId range : jsstring)
| CBatchUpdate (spreadsheetId : jsstring) (requests : list UpdateRequest).

(** The store: what each call answers ([data.sheets], [data.values]),
    or what it throws. *)
Record Remote : Type := {
  spreadsheets_get : jsstring -> Result (option (list Sheet));
  values_get : jsstring -> jsstring -> Result (option (list Row));
  batchUpdate : jsstring -> list UpdateRequest -> Result unit
}.

Definition isMutation (c : Call) : bool :=
  match c with CBatchUpdate _ _ => true | _ => false end.

End Sheets.
Import Sheets.

(* ================================================================== *)
(** ** The handler's monad: exceptions over a trace of remote calls *)
(* ================================================================== *)

Module Eff.

Definition M (A : Type) : Type := list Call -> Result A * list Call.

Definition ret {A} (a : A) : M A := fun tr => (Ok a, tr).

Definition throw {A} (t : Thrown) : M A := fun tr => (Throw t, tr).

Definition bind {A B} (m : M A) (k : A -> M B) : M B :=
  fun tr =>
    match m tr with
    | (Ok a, tr') => k a tr'
    | (Throw t, tr') => (Throw t, tr')
    end.

(** [await call(...)]: log the call, then deliver its answer. *)
Definition await {A} (c : Call) (answer : Result A) : M A :=
  fun tr => (answer, tr ++ [c]).

(** [try { m } catch (error) { return h(error) }] at the top of a
    function, started with an empty trace. *)
Definition tryCatch {A} (m : M A) (h : Thrown -> A) : A * list Call :=
  match m [] with
  | (Ok a, tr) => (a, tr)
  | (Throw t, tr) => (h t, tr)
  end.

End Eff.
Import Eff.

Declare Scope eff_scope.
Delimit Scope eff_scope with eff.
Notation "x <- m ;; k" := (bind m (fun x => k))
  (at level 61, m at next level, right associativity) : eff_scope.

(* ================================================================== *)
(** ** [POST] of [src/app/api/send/route.ts] *)
(* ================================================================== *)

Module Route.

Local Open Scope eff_scope.

Definition GRAY_COLOR : Color :=
  {| red := (3 # 10)%Q; green := (3 # 10)%Q; blue := (3 # 10)%Q |}.

(** The header label the handler looks for: U+6848 U+4EF6 "ID". *)
Definition projectIDLabel : jsstring := [26696; 20214; 73; 68]%N.

(** The JSON payload of the request. *)
Record Payload : Type := {
  extractedProjectIDs : list jsstring;
  googleSpreadSheetID : jsstring;
  sheetName : jsstring
}.

Inductive Body : Type :=
| ErrorBody (error : jsstring)
| SuccessBody (success : bool) (message : jsstring).

(** [NextResponse.json(body, { status })] *)
Record Response : Type := { body : Body; status : Z }.

(** *** Step 1: the sheet named [sheetName] *)

(** [(s) => s.properties?.title === sheetName] *)
Definition titleIs (name : jsstring) (s : Sheet) : bool :=
  match properties s with
  | Some p => match title p with JVal t => eqb t name | _ => false end
  | None => false
  end.

(** [sheetMetadata.data.sheets?.find(...)] *)
Definition findSheet (sheets : option (list Sheet)) (name : jsstring)
  : option Sheet :=
  match sheets with
  | Some l => find (titleIs name) l
  | None => None
  end.

(** [targetSheet?.properties?.title] *)
Definition titleOf (targetSheet : option Sheet) : Nullable jsstring :=
  match targetSheet with
  | Some {| properties := Some p |} => title p
  | _ => JUndefined
  end.

(** [targetSheet?.properties?.sheetId] *)
Definition sheetIdOf (targetSheet : option Sheet) : Nullable Z :=
  match targetSheet with
  | Some {| properties := Some p |} => sheetId p
  | _ => JUndefined
  end.

(** The guard [!sheetTitle || sheetId === undefined], read the other way
    round: the title and identifier the handler goes on with. *)
Definition checkSheet (sheetTitle : Nullable jsstring)
  (sheetId : Nullable Z) : option (jsstring * Nullable Z) :=
  match sheetTitle, sheetId with
  | JVal t, JNull | JVal t, JVal _ =>
      if truthy t then Some (t, sheetId) else None
  | _, _ => None
  end.

Definition sheetNotFound (name : jsstring) : Response :=
  {| body := ErrorBody
       (lit "Spreadsheet structure error: Sheet named " ++ dquote
          ++ name ++ dquote ++ lit " could not be found.");
     status := 400 |}.

(** *** Step 2: the header row and the label's index *)

(** [`${sheetTitle}!1:1`] *)
Definition headerRange (sheetTitle : jsstring) : jsstring :=
  sheetTitle ++ lit "!1:1".

(** [headerResponse.data.values?.[0] || []] *)
Definition firstRowOrEmpty (values : option (list Row)) : list Cell :=
  match values with
  | Some (Some row :: _) => row
  | _ => []
  end.

(** [headerRow.findIndex((cell) => cell.trim() === label)], scanning
    from index [i]; [Ok None] is the result -1.  A nullish cell met
    before a match makes the callback throw. *)
Fixpoint findIndexFrom (i : nat) (headerRow : list Cell)
  : Result (option nat) :=
  match headerRow with
  | [] => Ok None
  | None :: _ => Throw trimOfUndefined
  | Some cell :: rest =>
      if eqb (trim cell) projectIDLabel then Ok (Some i)
      else findIndexFrom (S i) rest
  end.

Definition findProjectIDColumn (headerRow : list Cell)
  : Result (option nat) := findIndexFrom 0 headerRow.

Definition columnNotFound : Response :=
  {| body := ErrorBody
       (lit "The column '" ++ projectIDLabel
          ++ lit "' was not found in the first row of the sheet.");
     status := 400 |}.

(** *** Step 3: the column's address *)

(** [String.fromCharCode("A".charCodeAt(0) + projectIDColumnIndex)] *)
Definition columnLetter (projectIDColumnIndex : nat) : jsstring :=
  fromCharCode (65 + N.of_nat projectIDColumnIndex).

(** [`${sheetTitle}!${letter}:${letter}`] *)
Definition columnRange (sheetTitle letter : jsstring) : jsstring :=
  sheetTitle ++ lit "!" ++ letter ++ lit ":" ++ letter.

(** *** Step 4: matching *)

(** [projectIDColumn[i]?.[0]?.trim()]; [None] is [undefined]. *)
Definition rowValueAt (projectIDColumn : list Row) (i : nat)
  : option jsstring :=
  match nth_error projectIDColumn i with
  | Some (Some (Some cell :: _)) => Some (trim cell)
  | _ => None
  end.

(** [rowValue && extractedProjectIDs.includes(rowValue)] *)
Definition isListed (ids : list jsstring) (rowValue : option jsstring)
  : bool :=
  match rowValue with
  | Some v => truthy v && includes ids v
  | None => false
  end.

(** The object pushed for spreadsheet row [rowNumber]. *)
Definition greyOutRow (sheetId : Nullable Z) (rowNumber : nat)
  : UpdateRequest :=
  {| range := {| rangeSheetId := sheetId;
                 startRowIndex := Some (Z.of_nat rowNumber - 1)%Z;
                 endRowIndex := Some (Z.of_nat rowNumber);
                 startColumnIndex := None;
                 endColumnIndex := None |};
     backgroundColor := GRAY_COLOR;
     fields := lit "userEnteredFormat.backgroundColor" |}.

(** The [for] loop, from index [i] on; [updateRequests] is the array
    being filled.  The loop leaves through its condition: [fuel] only
    has to cover the remaining indices. *)
Fixpoint matchLoop (fuel i : nat) (sheetId : Nullable Z)
  (ids : list jsstring) (projectIDColumn : list Row)
  (updateRequests : list UpdateRequest) : list UpdateRequest :=
  match fuel with
  | O => updateRequests
  | S fuel' =>
      if i <? length projectIDColumn then
        let rowValue := rowValueAt projectIDColumn i in
        let rowNumber := i + 1 in
        let updateRequests' :=
          if isListed ids rowValue
          then updateRequests ++ [greyOutRow sheetId rowNumber]
          else updateRequests in
        matchLoop fuel' (i + 1) sheetId ids projectIDColumn
          updateRequests'
      else updateRequests
  end.

(** [const updateRequests = []; for (let i = 1; ...) ...] *)
Definition buildUpdateRequests (sheetId : Nullable Z)
  (ids : list jsstring) (projectIDColumn : list Row)
  : list UpdateRequest :=
  matchLoop (length projectIDColumn) 1 sheetId ids projectIDColumn [].

(** *** Step 5 and the responses *)

Definition successResponse (n : nat) (name : jsstring) : Response :=
  {| body := SuccessBody true
       (numberToString n
          ++ lit " rows were successfully updated in the Google Sheet: "
          ++ name ++ lit ".");
     status := 200 |}.

(** The [catch] block. *)
Definition apiError (error : Thrown) : Response :=
  let errorMessage :=
    match error with
    | ThrownError message => message
    | ThrownOther => lit "An unknown error occurred."
    end in
  {| body := ErrorBody (lit "API Error: " ++ errorMessage);
     status := 500 |}.

(** The [try] block. *)
Definition tryBlock (store : Remote) (payload : Payload) : M Response :=
  let ids := extractedProjectIDs payload in
  let ssid := googleSpreadSheetID payload in
  let name := sheetName payload in
  sheetMetadata <-
    await (CSpreadsheetsGet ssid) (spreadsheets_get store ssid) ;;
  let targetSheet := findSheet sheetMetadata name in
  match checkSheet (titleOf targetSheet) (sheetIdOf targetSheet) with
  | None => ret (sheetNotFound name)
  | Some (sheetTitle, sheetId) =>
      headerResponse <-
        await (CValuesGet ssid (headerRange sheetTitle))
          (values_get store ssid (headerRange sheetTitle)) ;;
      let headerRow := firstRowOrEmpty headerResponse in
      found <- (fun tr => (findProjectIDColumn headerRow, tr)) ;;
      match found with
      | None => ret columnNotFound
      | Some projectIDColumnIndex =>
          let projectIDColumnLetter :=
            columnLetter projectIDColumnIndex in
          let projectIDRange :=
            columnRange sheetTitle projectIDColumnLetter in
          columnResponse <-
            await (CValuesGet ssid projectIDRange)
              (values_get store ssid projectIDRange) ;;
          let projectIDColumn :=
            match columnResponse with Some v => v | None => [] end in
          let updateRequests :=
            buildUpdateRequests sheetId ids projectIDColumn in
          _ <- (if 0 <? length updateRequests
                then await (CBatchUpdate ssid updateRequests)
                       (batchUpdate store ssid updateRequests)
                else ret tt) ;;
          ret (successResponse (length updateRequests) name)
      end
  end.

(** [export async function POST(request)], from the parsed payload on:
    the response and the remote calls made, in order. *)
Definition POST (store : Remote) (payload : Payload)
  : Response * list Call :=
  tryCatch (tryBlock store payload) apiError.

End Route.
Import Route.

(* ================================================================== *)
(** ** [extractProjectIDs] of the upload page *)
(* ================================================================== *)

Module Page.

(** *** What Papa Parse hands to the [complete] callback

    Papa Parse is a third-party package; the page calls it with
    [header: true] and [skipEmptyLines: true].  The callback only sees
    [results.data], one object per data line.  The definitions below
    ([testEmptyLine], [processRow], [parse]) describe how the package
    builds those objects from the header fields and the tokenised lines;
    tokenising itself (delimiters, quotes, decoding) stays outside. *)

(** A property value of a row object: a cell, or the array kept under
    [__parsed_extra]. *)
Inductive Value : Type :=
| VString (s : jsstring)
| VArray (items : list jsstring).

(** A row object: its own string keys in creation order, with values.
    (Keys that look like array indices are enumerated first by
    [Object.keys]; none of them trims to the label, so the key [find]
    returns is the same.) *)
Definition RowObject := list (jsstring * Value).

Definition parsedExtra : jsstring := lit "__parsed_extra".

(** [row[key]] *)
Fixpoint getProp (row : RowObject) (key : jsstring) : option Value :=
  match row with
  | [] => None
  | (k, v) :: row' => if eqb k key then Some v else getProp row' key
  end.

(** [row[key] = v]: an existing key keeps its place. *)
Fixpoint setProp (row : RowObject) (key : jsstring) (v : Value)
  : RowObject :=
  match row with
  | [] => [(key, v)]
  | (k, w) :: row' =>
      if eqb k key then (k, v) :: row' else (k, w) :: setProp row' key v
  end.

(** [row[field] = row[field] || []; row[field].push(value)]; the
    property never holds a string, as every write to it goes here. *)
Definition pushExtra (row : RowObject) (value : jsstring) : RowObject :=
  match getProp row parsedExtra with
  | Some (VArray items) => setProp row parsedExtra (VArray (items ++ [value]))
  | _ => setProp row parsedExtra (VArray [value])
  end.

(** The package's [processRow] in header mode: cell [j] goes under
    [_fields[j]], cells beyond the header under [__parsed_extra]. *)
Fixpoint processRow (fields rowSource : list jsstring) (row : RowObject)
  : RowObject :=
  match rowSource with
  | [] => row
  | value :: rest =>
      let field :=
        match fields with [] => parsedExtra | f :: _ => f end in
      let row' :=
        if eqb field parsedExtra then pushExtra row value
        else setProp row field (VString value) in
      processRow (tl fields) rest row'
  end.

(** [skipEmptyLines: true] drops the lines made of one empty cell. *)
Definition testEmptyLine (line : list jsstring) : bool :=
  match line with
  | [[]] => true
  | _ => false
  end.

(** A tokenised CSV: the header fields and the lines after the header. *)
Record Csv : Type := {
  csvFields : list jsstring;
  csvLines : list (list jsstring)
}.

Definition dataLines (csv : Csv) : list (list jsstring) :=
  filter (fun line => negb (testEmptyLine line)) (csvLines csv).

(** [results.data] *)
Definition parse (csv : Csv) : list RowObject :=
  map (fun line => processRow (csvFields csv) line []) (dataLines csv).

(** *** The callback, from the source *)

(** How the promise settles. *)
Inductive Outcome : Type :=
| Resolve (projectIDList : list jsstring)
| Reject (message : jsstring).

Definition emptyInput : Outcome :=
  Reject (lit "CSV file is empty or could not be parsed.").

Definition headerNotFound : Outcome :=
  Reject (lit "CSV file does not contain a column named '"
            ++ projectIDLabel
            ++ lit "'. Please ensure the header is correct.").

(** Truthiness of a property value; arrays are always truthy. *)
Definition valueTruthy (v : Value) : bool :=
  match v with
  | VString s => truthy s
  | VArray _ => true
  end.

(** [items.join(",")] *)
Fixpoint join (items : list jsstring) : jsstring :=
  match items with
  | [] => []
  | [x] => x
  | x :: rest => x ++ lit "," ++ join rest
  end.

(** [String(v)] *)
Definition toString (v : Value) : jsstring :=
  match v with
  | VString s => s
  | VArray items => join items
  end.

(** [row[projectIDKey] ? String(row[projectIDKey]).trim() : ""] *)
Definition cellOf (projectIDKey : jsstring) (row : RowObject) : jsstring :=
  match getProp row projectIDKey with
  | Some v => if valueTruthy v then trim (toString v) else []
  | None => []
  end.

(** [(key) => key.trim() === label] *)
Definition isProjectIDKey (key : jsstring) : bool :=
  eqb (trim key) projectIDLabel.

(** [complete: (results) => { ... }] on [results.data]. *)
Definition complete (data : list RowObject) : Outcome :=
  match data with
  | [] => emptyInput
  | first :: _ =>
      let headerKeys := map fst first in
      match find isProjectIDKey headerKeys with
      | Some projectIDKey =>
          if truthy projectIDKey then
            Resolve (filter truthy (map (cellOf projectIDKey) data))
          else headerNotFound
      | None => headerNotFound
      end
  end.

Definition extractProjectIDs (csv : Csv) : Outcome :=
  complete (parse csv).

End Page.
Import Page.

(* ================================================================== *)
(** ** The specification's own notions, for comparison with the code *)
(* ================================================================== *)

Module Spec.

(** The first cell of spreadsheet row [r] (rows count from 1) of a
    column read, when the read has one. *)
Definition firstCell (V : list Row) (r : nat) : option jsstring :=
  match nth_error V (r - 1) with
  | Some (Some (Some cell :: _)) => Some cell
  | _ => None
  end.

(** Row [r] matches when its trimmed cell is non-empty and is one of
    the identifiers; a row without a cell counts as an empty value. *)
Definition rowMatches (V : list Row) (S : list jsstring) (r : nat)
  : bool :=
  let v := trim (match firstCell V r with Some c => c | None => [] end) in
  truthy v && includes S v.

(** The matching rows among the value rows 2, 3, ..., in sheet order. *)
Definition matchedRows (V : list Row) (S : list jsstring) : list nat :=
  filter (rowMatches V S) (seq 2 (List.length V - 1)).

(** Bijective base-26 numeral of a column number: A = 1, ..., Z = 26,
    AA = 27, ...; the letters are produced from the right. *)
Fixpoint lettersOf (fuel n : nat) (acc : jsstring) : jsstring :=
  match fuel, n with
  | S fuel', S m =>
      lettersOf fuel' (m / 26) ((65 + N.of_nat (m mod 26))%N :: acc)
  | _, _ => acc
  end.

Definition columnAddress (n : nat) : jsstring := lettersOf n n [].

(** A column read with every missing first cell written out as an empty
    string. *)
Definition fillMissing (V : list Row) : list Row :=
  map (fun row =>
         match row with
         | Some (Some cell :: rest) => Some (Some cell :: rest)
         | _ => Some [Some []]
         end) V.

(** The run of a request gets to the matching step: the store answers
    the three reads, the sheet and the header column are found, and the
    column read is [V]. *)
Definition ReachesMatching (store : Remote) (payload : Payload)
  (sheetTitle : jsstring) (sheetId : Nullable Z) (index : nat)
  (V : list Row) : Prop :=
  let ssid := googleSpreadSheetID payload in
  exists sheets headerValues columnValues,
    spreadsheets_get store ssid = Ok sheets
    /\ checkSheet (titleOf (findSheet sheets (sheetName payload)))
         (sheetIdOf (findSheet sheets (sheetName payload)))
       = Some (sheetTitle, sheetId)
    /\ values_get store ssid (headerRange sheetTitle) = Ok headerValues
    /\ findProjectIDColumn (firstRowOrEmpty headerValues) = Ok (Some index)
    /\ values_get store ssid
         (columnRange sheetTitle (columnLetter index)) = Ok columnValues
    /\ V = match columnValues with Some v => v | None => [] end.

(** The steps of a request at which it can fail. *)
Inductive Stage : Type :=
| ResolvingSheet
| ResolvingColumn
| ReadingColumn
| Submitting.

(** When a step fails, in terms of what the store answers: the fetch of
    the sheet list throws or the sheet is not in it; the read of row 1
    throws, a header cell cannot be trimmed, or the label is not in the
    row; the read of the column throws; the submission throws. *)
Inductive StepFails (store : Remote) (payload : Payload)
  : Stage -> Prop :=
| sheet_fetch_throws t :
    spreadsheets_get store (googleSpreadSheetID payload) = Throw t ->
    StepFails store payload ResolvingSheet
| sheet_absent sheets :
    spreadsheets_get store (googleSpreadSheetID payload) = Ok sheets ->
    checkSheet (titleOf (findSheet sheets (sheetName payload)))
      (sheetIdOf (findSheet sheets (sheetName payload))) = None ->
    StepFails store payload ResolvingSheet
| header_read_throws sheets sheetTitle sheetId t :
    spreadsheets_get store (googleSpreadSheetID payload) = Ok sheets ->
    checkSheet (titleOf (findSheet sheets (sheetName payload)))
      (sheetIdOf (findSheet sheets (sheetName payload)))
    = Some (sheetTitle, sheetId) ->
    values_get store (googleSpreadSheetID payload)
      (headerRange sheetTitle) = Throw t ->
    StepFails store payload ResolvingColumn
| header_lookup_fails sheets sheetTitle sheetId headerValues :
    spreadsheets_get store (googleSpreadSheetID payload) = Ok sheets ->
    checkSheet (titleOf (findSheet sheets (sheetName payload)))
      (sheetIdOf (findSheet sheets (sheetName payload)))
    = Some (sheetTitle, sheetId) ->
    values_get store (googleSpreadSheetID payload)
      (headerRange sheetTitle) = Ok headerValues ->
    (forall index,
        findProjectIDColumn (firstRowOrEmpty headerValues)
        <> Ok (Some index)) ->
    StepFails store payload ResolvingColumn
| column_read_throws sheets sheetTitle sheetId headerValues index t :
    spreadsheets_get store (googleSpreadSheetID payload) = Ok sheets ->
    checkSheet (titleOf (findSheet sheets (sheetName payload)))
      (sheetIdOf (findSheet sheets (sheetName payload)))
    = Some (sheetTitle, sheetId) ->
    values_get store (googleSpreadSheetID payload)
      (headerRange sheetTitle) = Ok headerValues ->
    findProjectIDColumn (firstRowOrEmpty headerValues)
    = Ok (Some index) ->
    values_get store (googleSpreadSheetID payload)
      (columnRange sheetTitle (columnLetter index)) = Throw t ->
    StepFails store payload ReadingColumn
| submission_throws sheetTitle sheetId index V t :
    ReachesMatching store payload sheetTitle sheetId index V ->
    buildUpdateRequests sheetId (extractedProjectIDs payload) V <> [] ->
    batchUpdate store (googleSpreadSheetID payload)
      (buildUpdateRequests sheetId (extractedProjectIDs payload) V)
    = Throw t ->
    StepFails store payload Submitting.

(** A response that reports a failure: it carries [error]. *)
Definition isError (response : Response) : bool :=
  match body response with
  | ErrorBody _ => true
  | SuccessBody _ _ => false
  end.

(** A sheet list entry made of a title and an internal identifier. *)
Definition entry (p : jsstring * Z) : Sheet :=
  {| properties :=
       Some {| title := JVal (fst p); sheetId := JVal (snd p) |} |}.

(** The success body as the specification words it. *)
Definition specSuccessBody (n : nat) (name : jsstring) : Body :=
  SuccessBody true
    (numberToString n ++ lit " rows updated in sheet " ++ name).

(** The three reads of a run that gets to the matching step. *)
Definition readsOf (payload : Payload) (sheetTitle : jsstring)
  (index : nat) : list Call :=
  [CSpreadsheetsGet (googleSpreadSheetID payload);
   CValuesGet (googleSpreadSheetID payload) (headerRange sheetTitle);
   CValuesGet (googleSpreadSheetID payload)
     (columnRange sheetTitle (columnLetter index))].

End Spec.
Import Spec.

(* ================================================================== *)
(** ** Worked runs *)
(* ================================================================== *)

Module Scenario.

(** A store holding one spreadsheet with one sheet, whose header row and
    identifier column are given; every call succeeds. *)
Definition oneSheet (name : jsstring) (id : Z) (header : list Cell)
  (letter : jsstring) (column : list Row) : Remote :=
  {| spreadsheets_get := fun _ =>
       Ok (Some [ {| properties :=
                       Some {| title := JVal name; sheetId := JVal id |} |} ]);
     values_get := fun _ range =>
       if eqb range (headerRange name) then Ok (Some [Some header])
       else if eqb range (columnRange name letter) then Ok (Some column)
       else Throw (ThrownError (lit "Unable to parse range"));
     batchUpdate := fun _ _ => Ok tt |}.

Definition cellRow (s : string) : Row := Some [Some (lit s)].

(** End-to-end scenario A of the specification. *)
Definition columnA : list Row :=
  [Some [Some projectIDLabel]; cellRow "XYZ"; cellRow "ABC";
   cellRow "DEF"; cellRow "GHI"].

Definition storeA : Remote :=
  oneSheet (lit "Sheet1") 0 [Some projectIDLabel] (lit "A") columnA.

Definition payloadA : Payload :=
  {| extractedProjectIDs := [lit "ABC"; lit "DEF"];
     googleSpreadSheetID := lit "doc";
     sheetName := lit "Sheet1" |}.

(** The same sheet, asked about an identifier it does not hold. *)
Definition payloadNone : Payload :=
  {| extractedProjectIDs := [lit "NOPE"];
     googleSpreadSheetID := lit "doc";
     sheetName := lit "Sheet1" |}.

(** The identifiers of [payloadA] in another order, with a repetition. *)
Definition payloadA' : Payload :=
  {| extractedProjectIDs := [lit "DEF"; lit "ABC"; lit "DEF"];
     googleSpreadSheetID := lit "doc";
     sheetName := lit "Sheet1" |}.

(** A sparse column read: a nullish row, a row without cells, a row
    whose first cell is nullish, then two ordinary rows. *)
Definition columnSparse : list Row :=
  [Some [Some projectIDLabel]; None; Some []; Some [None];
   cellRow "ABC"; cellRow " DEF "].

Definition storeSparse : Remote :=
  oneSheet (lit "Sheet1") 0 [Some projectIDLabel] (lit "A") columnSparse.

(** End-to-end scenario D: the label sits in the 27th column.  The
    store answers the read of the column under its address [AA]. *)
Definition headerWide : list Cell :=
  repeat (Some (lit "x")) 26 ++ [Some projectIDLabel].

Definition storeWide : Remote :=
  oneSheet (lit "Sheet1") 0 headerWide (lit "AA") columnA.

(** A store whose batch update is refused. *)
Definition storeRefusing : Remote :=
  {| spreadsheets_get := spreadsheets_get storeA;
     values_get := values_get storeA;
     batchUpdate := fun _ _ =>
       Throw (ThrownError (lit "The caller does not have permission")) |}.

(** The CSV of scenario A: the label, then ABC and DEF. *)
Definition csvA : Csv :=
  {| csvFields := [projectIDLabel];
     csvLines := [[lit "ABC"]; [lit "DEF"]] |}.

(** The label alone under its header, no data line. *)
Definition csvHeaderOnly : Csv :=
  {| csvFields := [projectIDLabel]; csvLines := [] |}.

(** Scenario B: the header is [id], with and without a data line. *)
Definition csvWrongHeader : Csv :=
  {| csvFields := [lit "id"]; csvLines := [[lit "ABC"]] |}.

Definition csvWrongHeaderNoRows : Csv :=
  {| csvFields := [lit "id"]; csvLines := [] |}.

(** The label in the second column, padded with blanks; a short line,
    an empty line, a blank cell and a line with one cell too many. *)
Definition csvRagged : Csv :=
  {| csvFields := [lit "name"; lit " " ++ projectIDLabel ++ lit " "];
     csvLines := [[lit "a"; lit " ABC "]; [lit "b"]; [[]];
                  [lit "c"; lit "  "];
                  [lit "d"; lit "DEF"; lit "extra"]] |}.

(** The first data line stops before the label's column. *)
Definition csvShortFirst : Csv :=
  {| csvFields := [lit "name"; projectIDLabel];
     csvLines := [[lit "a"]; [lit "b"; lit "ABC"]] |}.

End Scenario.

(* ================================================================== *)
(** ** The remote calls of a run, seen from the store *)
(* ================================================================== *)

Module Calls.




(** All code units of a string are white space. *)
Definition blank (s : jsstring) : bool := forallb isWhiteSpace s.

(** An identifier that can match a trimmed cell: non-empty and equal to
    its own trimming. *)
Definition trimmedIdentifier (id : jsstring) : bool :=
  truthy id && eqb (trim id) id.

End Calls.
Import Calls.

(* ================================================================== *)
(** ** The upload form of the page component *)
(* ================================================================== *)

Module Form.

(** [s.startsWith(prefix)], used for [endsWith] and [includes]. *)
Fixpoint startsWith (s prefix : jsstring) : bool :=
  match prefix, s with
  | [], _ => true
  | p :: prefix', c :: s' => N.eqb c p && startsWith s' prefix'
  | _ :: _, [] => false
  end.

(** [s.endsWith(suffix)] *)
Definition endsWith (s suffix : jsstring) : bool :=
  startsWith (rev s) (rev suffix).

(** [s.includes(pattern)] on a string. *)
Fixpoint stringIncludes (s pattern : jsstring) : bool :=
  startsWith s pattern
  || match s with
     | [] => false
     | _ :: s' => stringIncludes s' pattern
     end.

(** A [File] of the input element: its name and MIME type, and what
    Papa Parse gets out of it, the tokenised CSV or the message of the
    error it reports to the [error] callback. *)
Record File : Type := {
  name : jsstring;
  type : jsstring;
  contents : Csv + jsstring
}.

(** [interface FormDataState] *)
Record FormDataState : Type := {
  file : option File;
  url : jsstring;
  error : option jsstring;
  projectIDList : option (list jsstring)
}.

(** What the handlers act on: the current React state and the value of
    the file input behind [fileInputRef] ([None] when the ref is
    empty). *)
Record World : Type := {
  current : FormDataState;
  fileInput : option jsstring
}.

(** [setFormData(next)] *)
Definition setFormData (next : FormDataState) (w : World) : World :=
  {| current := next; fileInput := fileInput w |}.

(** [setFormData((prev) => f(prev))] *)
Definition updateFormData (f : FormDataState -> FormDataState)
  (w : World) : World :=
  {| current := f (current w); fileInput := fileInput w |}.

(** [if (fileInputRef.current) fileInputRef.current.value = ""] *)
Definition clearFileInput (w : World) : World :=
  {| current := current w;
     fileInput := match fileInput w with
                  | Some _ => Some []
                  | None => None
                  end |}.

(** [checkFileFormat] *)
Definition checkFileFormat (f : File) : bool :=
  eqb (type f) (lit "text/csv") || endsWith (name f) (lit ".csv").

(** [handleUrlChange], with the value of the event's target. *)
Definition handleUrlChange (formData : FormDataState) (value : jsstring)
  (w : World) : World :=
  setFormData {| file := file formData; url := value;
                 error := error formData;
                 projectIDList := projectIDList formData |} w.

(** [handleFileChange], with [e.target.files]. *)
Definition handleFileChange (formData : FormDataState)
  (files : option (list File)) (w : World) : World :=
  match files with
  | Some (f :: _) =>
      setFormData {| file := Some f; url := url formData; error := None;
                     projectIDList := projectIDList formData |} w
  | _ => w
  end.

(** [extractProjectIDs(file)]: the promise settles through the
    [complete] callback, or through the [error] callback. *)
Definition extractFromFile (f : File) : Outcome :=
  match contents f with
  | inl csv => Page.extractProjectIDs csv
  | inr message => Reject (lit "CSV parsing failed: " ++ message)
  end.

(** Where [sendForm] stands when it first yields: it has returned, or it
    awaits the extraction from a file. *)
Inductive Progress : Type :=
| Returned
| Awaiting (f : File).

Definition notSelected : jsstring := lit "File is not selected.".

Definition notCsv : jsstring :=
  lit "Error: The selected file is not in CSV format. Please select a CSV file.".

Definition processing : jsstring := lit "Processing CSV file...".

Definition sending : jsstring := lit "Sending information to the backend...".

Definition simulated : jsstring := lit "(Simulation) File sent successfully!".

(** [sendForm] up to its [await]; [formData] is the state the handler
    closed over. *)
Definition sendFormStart (formData : FormDataState) (w : World)
  : World * Progress :=
  match file formData with
  | None =>
      (setFormData {| file := file formData; url := url formData;
                      error := Some notSelected;
                      projectIDList := projectIDList formData |} w,
       Returned)
  | Some f =>
      if negb (checkFileFormat f) then
        let w1 :=
          setFormData {| file := file formData; url := url formData;
                         error := Some notCsv;
                         projectIDList := projectIDList formData |} w in
        let w2 := clearFileInput w1 in
        (updateFormData
           (fun prev => {| file := None; url := url prev;
                           error := error prev;
                           projectIDList := None |}) w2,
         Returned)
      else
        (setFormData {| file := file formData; url := url formData;
                        error := Some processing;
                        projectIDList := None |} w,
         Awaiting f)
  end.

(** [sendForm] from the settled promise on; [w] is the world at that
    time.  The result tells whether the timer was set. *)
Definition sendFormResume (formData : FormDataState) (outcome : Outcome)
  (w : World) : World * bool :=
  match outcome with
  | Reject message =>
      let w1 :=
        setFormData {| file := file formData; url := url formData;
                       error := Some message;
                       projectIDList := projectIDList formData |} w in
      let w2 := clearFileInput w1 in
      (updateFormData
         (fun prev => {| file := None; url := url prev;
                         error := error prev;
                         projectIDList := projectIDList prev |}) w2,
       false)
  | Resolve extractedProjectIDs =>
      (updateFormData
         (fun prev => {| file := file prev; url := url prev;
                         error := Some sending;
                         projectIDList := Some extractedProjectIDs |}) w,
       true)
  end.

(** The callback given to [setTimeout]. *)
Definition timeoutCallback (w : World) : World :=
  clearFileInput
    (setFormData {| file := None; url := []; error := Some simulated;
                    projectIDList := None |} w).

(** [sendForm] when nothing else touches the form while it awaits. *)
Definition sendForm (formData : FormDataState) (w : World)
  : World * bool :=
  match sendFormStart formData w with
  | (w1, Returned) => (w1, false)
  | (w1, Awaiting f) => sendFormResume formData (extractFromFile f) w1
  end.

(** The colour of the message paragraph, when it is rendered. *)
Inductive Colour : Type := Red | Green.

(** [formData.error && <p style={{ color: ... }}>] *)
Definition messageColour (formData : FormDataState) : option Colour :=
  match error formData with
  | Some e =>
      if truthy e
      then Some (if stringIncludes e (lit "Error") then Red else Green)
      else None
  | None => None
  end.

(** [disabled={!formData.file || !formData.url}] *)
Definition submitDisabled (formData : FormDataState) : bool :=
  match file formData with
  | None => true
  | Some _ => negb (truthy (url formData))
  end.

End Form.

(* ================================================================== *)
(** ** The paths of a run, and further worked inputs *)
(* ================================================================== *)

Module Paths.

(** A header cell that is a string and does not read as the label. *)
Definition unlabelled (c : Cell) : Prop :=
  exists s, c = Some s /\ trim s <> projectIDLabel.


End Paths.
Import Paths.

Module Cases.

(** A sheet whose first row does not hold the label. *)
Definition storeNoLabel : Remote :=
  Scenario.oneSheet (lit "Sheet1") 0 [Some (lit "id"); Some (lit "name")]
    (lit "A") Scenario.columnA.

(** A store that cannot be reached. *)
Definition storeDown : Remote :=
  {| spreadsheets_get := fun _ =>
       Throw (ThrownError (lit "Request failed with status code 503"));
     values_get := fun _ _ =>
       Throw (ThrownError (lit "Request failed with status code 503"));
     batchUpdate := fun _ _ =>
       Throw (ThrownError (lit "Request failed with status code 503")) |}.

(** A column read with the data cells padded by blanks. *)
Definition columnPadded : list Row :=
  [Some [Some projectIDLabel]; Scenario.cellRow "XYZ";
   Scenario.cellRow "  ABC "; Scenario.cellRow "DEF";
   Scenario.cellRow "GHI"].

(** A CSV file that parses, under a name and type that pass the check. *)
Definition fileOf (csv : Csv) : Form.File :=
  {| Form.name := lit "ended.csv"; Form.type := lit "text/csv";
     Form.contents := inl csv |}.

(** A spreadsheet export picked by mistake. *)
Definition fileXlsx : Form.File :=
  {| Form.name := lit "ended.xlsx";
     Form.type := lit "application/vnd.ms-excel";
     Form.contents := inl Scenario.csvA |}.

(** The form as rendered with a file and a URL filled in. *)
Definition formWith (f : Form.File) : Form.FormDataState :=
  {| Form.file := Some f; Form.url := lit "https://example.com/target";
     Form.error := None; Form.projectIDList := None |}.

Definition worldWith (f : Form.File) : Form.World :=
  {| Form.current := formWith f; Form.fileInput := Some (lit "ended.csv") |}.

(** The same form after the URL was edited while the file was parsed. *)
Definition worldEdited (f : Form.File) : Form.World :=
  {| Form.current :=
       {| Form.file := Some f; Form.url := lit "https://example.com/other";
          Form.error := Some Form.processing;
          Form.projectIDList := None |};
     Form.fileInput := Some (lit "ended.csv") |}.

End Cases.

(* ================================================================== *)
(** ** Facts about the string primitives *)
(* ================================================================== *)

Section JsFacts.

Lemma eqb_eq (a b : jsstring) : eqb a b = true <-> a = b.
Proof.
  revert b; induction a as [|x a IH]; intros [|y b]; simpl;
    try (split; [discriminate | discriminate]); try tauto.
  rewrite andb_true_iff, N.eqb_eq, IH.
  split; [intros [-> ->]; reflexivity | intros H; inversion H; auto].
Qed.

Lemma eqb_refl (a : jsstring) : eqb a a = true.
Proof. apply eqb_eq; reflexivity. Qed.

Lemma eqb_neq (a b : jsstring) : eqb a b = false <-> a <> b.
Proof.
  rewrite <- eqb_eq. destruct (eqb a b); split; congruence.
Qed.

Lemma includes_In (arr : list jsstring) (x : jsstring) :
  includes arr x = true <-> In x arr.
Proof.
  induction arr as [|y arr IH]; simpl.
  - split; [discriminate | tauto].
  - rewrite orb_true_iff, eqb_eq, IH. tauto.
Qed.

(** [includes] only depends on which strings the array holds. *)
Lemma includes_same_members (xs ys : list jsstring) :
  (forall x, In x xs <-> In x ys) ->
  forall x, includes xs x = includes ys x.
Proof.
  intros same x.
  destruct (includes xs x) eqn:Ex, (includes ys x) eqn:Ey; trivial.
  - apply includes_In, same, includes_In in Ex. congruence.
  - apply includes_In, same, includes_In in Ey. congruence.
Qed.

Lemma truthy_nonempty (s : jsstring) : truthy s = true <-> s <> [].
Proof. destruct s; simpl; split; congruence. Qed.

End JsFacts.

(* ================================================================== *)
(** ** The matching loop against the specification's matched rows *)
(* ================================================================== *)

Section Matching.

Variable sheetId : Nullable Z.
Variable ids : list jsstring.
Variable V : list Row.

(** Index [i] of the column read is spreadsheet row [i + 1]. *)
Lemma isListed_rowMatches (i : nat) :
  isListed ids (rowValueAt V i) = rowMatches V ids (i + 1).
Proof.
  unfold isListed, rowValueAt, rowMatches, firstCell.
  replace (i + 1 - 1) with i by lia.
  destruct (nth_error V i) as [[[|[cell|] rest]|]|]; reflexivity.
Qed.

(** The loop started at index [i] appends the instructions of the rows
    after [i], whatever fuel beyond the remaining indices it is given. *)
Lemma matchLoop_filter (fuel i : nat) (acc : list UpdateRequest) :
  List.length V - i <= fuel ->
  matchLoop fuel i sheetId ids V acc
  = acc ++ map (greyOutRow sheetId)
             (filter (rowMatches V ids)
                (seq (i + 1) (List.length V - i))).
Proof.
  revert i acc; induction fuel as [|fuel IH]; intros i acc Hfuel; simpl.
  - replace (List.length V - i) with 0 by lia. simpl.
    now rewrite app_nil_r.
  - destruct (Nat.ltb_spec i (List.length V)) as [Hlt|Hge].
    + rewrite IH by lia.
      replace (List.length V - i) with (S (List.length V - (i + 1))) by lia.
      cbn [seq filter]. rewrite isListed_rowMatches.
      replace (S (i + 1)) with (i + 1 + 1) by lia.
      destruct (rowMatches V ids (i + 1)); cbn [map].
      * now rewrite <- app_assoc.
      * reflexivity.
    + replace (List.length V - i) with 0 by lia. simpl.
      now rewrite app_nil_r.
Qed.

Lemma buildUpdateRequests_matchedRows :
  buildUpdateRequests sheetId ids V
  = map (greyOutRow sheetId) (matchedRows V ids).
Proof.
  unfold buildUpdateRequests, matchedRows.
  rewrite matchLoop_filter by lia. reflexivity.
Qed.

Lemma matchedRows_NoDup : NoDup (matchedRows V ids).
Proof. apply NoDup_filter, seq_NoDup. Qed.

Lemma matchedRows_In (r : nat) :
  In r (matchedRows V ids)
  <-> 2 <= r <= List.length V
      /\ exists cell, firstCell V r = Some cell
                      /\ trim cell <> [] /\ In (trim cell) ids.
Proof.
  unfold matchedRows. rewrite filter_In, in_seq. unfold rowMatches.
  split.
  - intros [Hr Hm]. split; [lia|].
    apply andb_true_iff in Hm as [Ht Hi].
    destruct (firstCell V r) as [cell|].
    + exists cell. rewrite truthy_nonempty in Ht.
      rewrite includes_In in Hi. auto.
    + discriminate Ht.
  - intros [Hr (cell & Hc & Hne & Hin)]. split; [lia|].
    rewrite Hc. apply andb_true_iff.
    now rewrite truthy_nonempty, includes_In.
Qed.

End Matching.

(* ================================================================== *)
(** ** Runs of [POST] *)
(* ================================================================== *)

Section Runs.

Variable store : Remote.
Variable payload : Payload.

Let ids := extractedProjectIDs payload.
Let ssid := googleSpreadSheetID payload.
Let name := sheetName payload.

(** A run that gets to the matching step ends in one of three ways. *)
Lemma POST_at_matching sheetTitle sheetId index V :
  ReachesMatching store payload sheetTitle sheetId index V ->
  let reqs := buildUpdateRequests sheetId ids V in
  POST store payload
  = if 0 <? List.length reqs then
      match batchUpdate store ssid reqs with
      | Ok _ =>
          (successResponse (List.length reqs) name,
           readsOf payload sheetTitle index ++ [CBatchUpdate ssid reqs])
      | Throw t =>
          (apiError t,
           readsOf payload sheetTitle index ++ [CBatchUpdate ssid reqs])
      end
    else (successResponse (List.length reqs) name,
          readsOf payload sheetTitle index).
Proof.
  intros (sheets & hv & cv & Hget & Hcheck & Hhead & Hfind & Hcol & ->).
  unfold POST, tryCatch, tryBlock, bind, await, ret, readsOf.
  fold ssid name ids.
  unfold ssid, name in *. rewrite Hget. cbn [app].
  rewrite Hcheck, Hhead, Hfind, Hcol. cbn zeta.
  destruct (0 <? _); [|reflexivity].
  destruct (batchUpdate store _ _); reflexivity.
Qed.

End Runs.

(* ================================================================== *)
(** ** Matching and the batch built from it *)
(* ================================================================== *)

Ltac reach_by_computation :=
  eexists _, _, _; repeat split; vm_compute; reflexivity.

(** C1: when the identifier column read is [V] and the identifier list is
    [S], the rows marked are exactly the rows [r >= 2] whose trimmed cell
    is non-empty and occurs in [S]; the reconciler builds one instruction
    per such row and no other, each on the row range [[r-1, r)] without
    column bounds and with the fixed gray background; this is the batch it
    submits, and the count it reports on success is the number of such
    rows. *)
Theorem C1_marks_exactly_matching_rows :
  forall store payload sheetTitle sheetId index V,
    ReachesMatching store payload sheetTitle sheetId index V ->
    let S := extractedProjectIDs payload in
    let reqs := buildUpdateRequests sheetId S V in
    (forall r, In r (matchedRows V S)
               <-> 2 <= r <= List.length V
                   /\ exists cell, firstCell V r = Some cell
                                   /\ trim cell <> [] /\ In (trim cell) S)
    /\ NoDup (matchedRows V S)
    /\ reqs = map (fun r =>
                     {| range := {| rangeSheetId := sheetId;
                                    startRowIndex := Some (Z.of_nat r - 1)%Z;
                                    endRowIndex := Some (Z.of_nat r);
                                    startColumnIndex := None;
                                    endColumnIndex := None |};
                        backgroundColor :=
                          {| red := (3 # 10)%Q; green := (3 # 10)%Q;
                             blue := (3 # 10)%Q |};
                        fields := lit "userEnteredFormat.backgroundColor" |})
                  (matchedRows V S)
    /\ (forall doc batch,
          In (CBatchUpdate doc batch) (snd (POST store payload)) ->
          batch = reqs)
    /\ (status (fst (POST store payload)) = 200%Z ->
        fst (POST store payload)
        = successResponse (List.length (matchedRows V S))
            (sheetName payload)).
Proof.
  intros store payload sheetTitle sheetId index V Hreach S reqs.
  assert (Hreqs : reqs = map (greyOutRow sheetId) (matchedRows V S))
    by apply buildUpdateRequests_matchedRows.
  split; [apply matchedRows_In|].
  split; [apply matchedRows_NoDup|].
  split; [exact Hreqs|].
  rewrite (POST_at_matching Hreach). fold S reqs.
  assert (Hlen : List.length reqs = List.length (matchedRows V S))
    by (rewrite Hreqs; apply length_map).
  split.
  - intros doc batch.
    destruct (0 <? List.length reqs);
      [destruct (batchUpdate store _ reqs)|]; cbn [snd readsOf];
      rewrite ?in_app_iff; cbn [In]; intros Hin;
      repeat (destruct Hin as [Hin|Hin]; try discriminate Hin; try tauto);
      now inversion Hin.
  - destruct (0 <? List.length reqs);
      [destruct (batchUpdate store _ reqs)|]; cbn [fst];
      rewrite <- ?Hlen; try reflexivity.
    destruct t; cbn; discriminate.
Qed.

Lemma C1_witness :
  ReachesMatching Scenario.storeA Scenario.payloadA (lit "Sheet1")
    (JVal 0%Z) 0 Scenario.columnA
  /\ matchedRows Scenario.columnA [lit "ABC"; lit "DEF"] = [3; 4]
  /\ fst (POST Scenario.storeA Scenario.payloadA)
     = successResponse 2 (lit "Sheet1").
Proof.
  assert (Hreach : ReachesMatching Scenario.storeA Scenario.payloadA
                     (lit "Sheet1") (JVal 0%Z) 0 Scenario.columnA)
    by reach_by_computation.
  split; [exact Hreach|]. split; [reflexivity|].
  destruct (C1_marks_exactly_matching_rows Hreach) as (_ & _ & _ & _ & Hcount).
  apply Hcount. reflexivity.
Defined.

(** C4: when the matching step finds no matching row, the run makes no
    batch-update call (its only remote calls are the three reads) and
    answers with the success response that reports 0 updated rows. *)
Theorem C4_zero_matches_no_mutation :
  forall store payload sheetTitle sheetId index V,
    ReachesMatching store payload sheetTitle sheetId index V ->
    buildUpdateRequests sheetId (extractedProjectIDs payload) V = [] ->
    POST store payload
    = (successResponse 0 (sheetName payload),
       readsOf payload sheetTitle index)
    /\ existsb isMutation (snd (POST store payload)) = false
    /\ status (fst (POST store payload)) = 200%Z
    /\ body (fst (POST store payload))
       = SuccessBody true
           (lit "0 rows were successfully updated in the Google Sheet: "
              ++ sheetName payload ++ lit ".").
Proof.
  intros store payload sheetTitle sheetId index V Hreach Hnone.
  rewrite (POST_at_matching Hreach), Hnone. cbn.
  repeat split; reflexivity.
Qed.

Lemma C4_witness :
  buildUpdateRequests (JVal 0%Z)
    (extractedProjectIDs Scenario.payloadNone) Scenario.columnA = []
  /\ POST Scenario.storeA Scenario.payloadNone
     = (successResponse 0 (lit "Sheet1"),
        readsOf Scenario.payloadNone (lit "Sheet1") 0).
Proof.
  split; [reflexivity|].
  refine (proj1 (@C4_zero_matches_no_mutation Scenario.storeA
                   Scenario.payloadNone (lit "Sheet1") (JVal 0%Z) 0
                   Scenario.columnA _ _)).
  - reach_by_computation.
  - reflexivity.
Defined.

(** The instructions built only depend on which identifiers the list
    holds. *)
Lemma buildUpdateRequests_same_members sheetId (xs ys : list jsstring) V :
  (forall x, In x xs <-> In x ys) ->
  buildUpdateRequests sheetId xs V = buildUpdateRequests sheetId ys V.
Proof.
  intros same. rewrite !buildUpdateRequests_matchedRows. f_equal.
  unfold matchedRows. apply filter_ext. intros r. unfold rowMatches.
  now rewrite (includes_same_members _ _ same).
Qed.

(** C9: two identifier lists with the same members (in any order, with
    any repetitions) give, on the same spreadsheet, the same instructions,
    the same remote calls and the same response, count included. *)
Theorem C9_only_membership_matters :
  forall store p1 p2,
    googleSpreadSheetID p1 = googleSpreadSheetID p2 ->
    sheetName p1 = sheetName p2 ->
    (forall x, In x (extractedProjectIDs p1)
               <-> In x (extractedProjectIDs p2)) ->
    (forall sheetId V,
        buildUpdateRequests sheetId (extractedProjectIDs p1) V
        = buildUpdateRequests sheetId (extractedProjectIDs p2) V)
    /\ POST store p1 = POST store p2.
Proof.
  intros store [ids1 doc1 name1] [ids2 doc2 name2]; cbn.
  intros <- <- same. split.
  - intros sheetId V. now apply buildUpdateRequests_same_members.
  - unfold POST, tryCatch, tryBlock, bind, await, ret; cbn.
    destruct (spreadsheets_get store doc1) as [sheets|t]; [|reflexivity].
    destruct (checkSheet _ _) as [[sheetTitle sheetId]|]; [|reflexivity].
    destruct (values_get store doc1 (headerRange sheetTitle))
      as [hv|t]; [|reflexivity].
    destruct (findProjectIDColumn _) as [[index|]|t]; try reflexivity.
    destruct (values_get store doc1 _) as [cv|t]; [|reflexivity].
    now rewrite buildUpdateRequests_same_members with (ys := ids2) by exact same.
Qed.

Lemma C9_witness :
  (forall x, In x (extractedProjectIDs Scenario.payloadA)
             <-> In x (extractedProjectIDs Scenario.payloadA'))
  /\ POST Scenario.storeA Scenario.payloadA
     = POST Scenario.storeA Scenario.payloadA'.
Proof.
  assert (same : forall x, In x (extractedProjectIDs Scenario.payloadA)
                           <-> In x (extractedProjectIDs Scenario.payloadA'))
    by (intros x; cbn; tauto).
  split; [exact same|].
  exact (proj2 (@C9_only_membership_matters Scenario.storeA
                  Scenario.payloadA Scenario.payloadA'
                  eq_refl eq_refl same)).
Defined.

(* ================================================================== *)
(** ** Sparse column reads *)
(* ================================================================== *)

Lemma rowMatches_fillMissing (V : list Row) (S : list jsstring) (r : nat) :
  rowMatches (fillMissing V) S r = rowMatches V S r.
Proof.
  unfold rowMatches, firstCell, fillMissing.
  rewrite nth_error_map. unfold Row, Cell, jsstring in *.
  destruct (nth_error V (r - 1)) as [[[|[cell|] rest]|]|]; reflexivity.
Qed.

Lemma matchedRows_fillMissing (V : list Row) (S : list jsstring) :
  matchedRows (fillMissing V) S = matchedRows V S.
Proof.
  unfold matchedRows. unfold fillMissing at 2. rewrite length_map.
  apply filter_ext. intros r. apply rowMatches_fillMissing.
Qed.

(** C10: the matching scan goes through every column read, sparse ones
    included.  A row that is absent, has no cell, or has a nullish first
    cell is handled exactly as a row holding the empty string and gets no
    instruction; once the column is read, the only error a run can still
    end in is the one thrown by the submission. *)
Theorem C10_sparse_column_scan_total :
  forall store payload sheetTitle sheetId index V,
    ReachesMatching store payload sheetTitle sheetId index V ->
    let ids := extractedProjectIDs payload in
    let reqs := buildUpdateRequests sheetId ids V in
    reqs = buildUpdateRequests sheetId ids (fillMissing V)
    /\ (forall r q, firstCell V r = None -> In q reqs ->
                    endRowIndex (range q) <> Some (Z.of_nat r))
    /\ (reqs = []
        \/ batchUpdate store (googleSpreadSheetID payload) reqs = Ok tt ->
        fst (POST store payload)
        = successResponse (List.length reqs) (sheetName payload))
    /\ (status (fst (POST store payload)) <> 200%Z ->
        exists t,
          reqs <> []
          /\ batchUpdate store (googleSpreadSheetID payload) reqs = Throw t
          /\ fst (POST store payload) = apiError t).
Proof.
  intros store payload sheetTitle sheetId index V Hreach ids reqs.
  split; [|split].
  - unfold reqs. rewrite !buildUpdateRequests_matchedRows.
    now rewrite matchedRows_fillMissing.
  - intros r q Hnone Hin. unfold reqs in Hin.
    rewrite buildUpdateRequests_matchedRows in Hin.
    apply in_map_iff in Hin as (r' & <- & Hr').
    apply matchedRows_In in Hr' as (_ & cell & Hcell & _).
    cbn. intros Heq. injection Heq as Heq.
    apply Nat2Z.inj in Heq. subst r'. congruence.
  - rewrite (POST_at_matching Hreach). fold ids reqs. split.
    + intros [Hnil|Hok].
      * rewrite Hnil. reflexivity.
      * rewrite Hok. now destruct (0 <? List.length reqs).
    + destruct (Nat.ltb_spec 0 (List.length reqs)) as [Hpos|Hzero].
      * destruct (batchUpdate store _ reqs) as [u|t] eqn:Hbatch; cbn [fst].
        -- intros Hstatus. now contradiction Hstatus.
        -- intros _. exists t. repeat split; try reflexivity.
           intros Hnil. rewrite Hnil in Hpos. cbn in Hpos. lia.
      * cbn [fst]. intros Hstatus. now contradiction Hstatus.
Qed.

Lemma C10_witness :
  ReachesMatching Scenario.storeSparse Scenario.payloadA (lit "Sheet1")
    (JVal 0%Z) 0 Scenario.columnSparse
  /\ buildUpdateRequests (JVal 0%Z) [lit "ABC"; lit "DEF"]
       Scenario.columnSparse
     = [greyOutRow (JVal 0%Z) 5; greyOutRow (JVal 0%Z) 6]
  /\ fst (POST Scenario.storeSparse Scenario.payloadA)
     = successResponse 2 (lit "Sheet1").
Proof.
  assert (Hreach : ReachesMatching Scenario.storeSparse Scenario.payloadA
                     (lit "Sheet1") (JVal 0%Z) 0 Scenario.columnSparse)
    by reach_by_computation.
  split; [exact Hreach|]. split; [reflexivity|].
  destruct (C10_sparse_column_scan_total Hreach) as (_ & _ & Hok & _).
  apply Hok. right. reflexivity.
Defined.

(* ================================================================== *)
(** ** Failing steps, and the shape of every run *)
(* ================================================================== *)

Ltac run_post :=
  unfold POST, tryCatch, tryBlock, bind, await, ret; cbn [app].

(** A run in which a step fails answers with an error, and every remote
    call before its last one is a read; unless the failing step is the
    submission, the run makes no mutating call at all. *)
Lemma POST_step_fails store payload stage :
  StepFails store payload stage ->
  isError (fst (POST store payload)) = true
  /\ status (fst (POST store payload)) <> 200%Z
  /\ existsb isMutation (removelast (snd (POST store payload))) = false
  /\ (stage <> Submitting ->
      existsb isMutation (snd (POST store payload)) = false).
Proof.
  intros Hfail.
  destruct Hfail as
    [ t Hget
    | sheets Hget Hcheck
    | sheets sheetTitle sheetId t Hget Hcheck Hhead
    | sheets sheetTitle sheetId hv Hget Hcheck Hhead Hfind
    | sheets sheetTitle sheetId hv index t Hget Hcheck Hhead Hfind Hcol
    | sheetTitle sheetId index V t Hreach Hsome Hbatch ].
  - run_post. rewrite Hget. cbn.
    repeat split; try reflexivity; now destruct t.
  - run_post. rewrite Hget, Hcheck. cbn.
    repeat split; try reflexivity; discriminate.
  - run_post. rewrite Hget, Hcheck, Hhead. cbn.
    repeat split; try reflexivity; now destruct t.
  - run_post. rewrite Hget, Hcheck, Hhead.
    destruct (findProjectIDColumn (firstRowOrEmpty hv))
      as [[index|]|t]; cbn.
    + now contradiction (Hfind index).
    + repeat split; try reflexivity; discriminate.
    + repeat split; try reflexivity; now destruct t.
  - run_post. rewrite Hget, Hcheck, Hhead, Hfind, Hcol. cbn.
    repeat split; try reflexivity; now destruct t.
  - rewrite (POST_at_matching Hreach), Hbatch.
    destruct (buildUpdateRequests sheetId (extractedProjectIDs payload) V)
      as [|q reqs] eqn:Hreqs; [now contradiction Hsome|].
    cbn [List.length Nat.ltb Nat.leb fst snd].
    rewrite removelast_last. cbn.
    repeat split; try reflexivity; now destruct t.
Qed.

(** Every run either fails at one of the steps before the submission, or
    gets to the matching step. *)
Lemma POST_outcomes store payload :
  (exists stage, stage <> Submitting /\ StepFails store payload stage)
  \/ (exists sheetTitle sheetId index V,
         ReachesMatching store payload sheetTitle sheetId index V).
Proof.
  destruct (spreadsheets_get store (googleSpreadSheetID payload))
    as [sheets|t] eqn:Hget.
  2:{ left. exists ResolvingSheet. split; [discriminate|].
      now apply sheet_fetch_throws with t. }
  destruct (checkSheet (titleOf (findSheet sheets (sheetName payload)))
              (sheetIdOf (findSheet sheets (sheetName payload))))
    as [[sheetTitle sheetId]|] eqn:Hcheck.
  2:{ left. exists ResolvingSheet. split; [discriminate|].
      now apply sheet_absent with sheets. }
  destruct (values_get store (googleSpreadSheetID payload)
              (headerRange sheetTitle)) as [hv|t] eqn:Hhead.
  2:{ left. exists ResolvingColumn. split; [discriminate|].
      now apply header_read_throws with sheets sheetTitle sheetId t. }
  destruct (findProjectIDColumn (firstRowOrEmpty hv))
    as [[index|]|t] eqn:Hfind.
  2,3: left; exists ResolvingColumn; (split; [discriminate|]);
       apply header_lookup_fails with sheets sheetTitle sheetId hv;
       trivial; intros index; rewrite Hfind; discriminate.
  destruct (values_get store (googleSpreadSheetID payload)
              (columnRange sheetTitle (columnLetter index)))
    as [cv|t] eqn:Hcol.
  2:{ left. exists ReadingColumn. split; [discriminate|].
      now apply column_read_throws
        with sheets sheetTitle sheetId hv index t. }
  right. exists sheetTitle, sheetId, index,
    (match cv with Some v => v | None => [] end).
  exists sheets, hv, cv. repeat split; assumption.
Qed.

Lemma filter_none {A} (f : A -> bool) (l : list A) :
  existsb f l = false -> filter f l = [].
Proof.
  induction l as [|a l IH]; cbn; [reflexivity|].
  destruct (f a); cbn; [discriminate | exact IH].
Qed.

(** C5: in every run the remote calls are reads followed by at most one
    mutating call, the batch update, which carries the finished result of
    the matching loop and comes last; and whenever a step fails (sheet
    resolution, header lookup, column read or the submission) the response
    is an error and no mutating call precedes the failure. *)
Theorem C5_single_final_mutation :
  forall store payload,
    let trace := snd (POST store payload) in
    let response := fst (POST store payload) in
    (exists reads writes,
        trace = reads ++ writes
        /\ existsb isMutation reads = false
        /\ (writes = []
            \/ exists sheetTitle sheetId index V,
                ReachesMatching store payload sheetTitle sheetId index V
                /\ writes
                   = [CBatchUpdate (googleSpreadSheetID payload)
                        (buildUpdateRequests sheetId
                           (extractedProjectIDs payload) V)]))
    /\ List.length (filter isMutation trace) <= 1
    /\ (forall stage,
           StepFails store payload stage ->
           isError response = true
           /\ status response <> 200%Z
           /\ existsb isMutation (removelast trace) = false
           /\ (stage <> Submitting -> existsb isMutation trace = false)).
Proof.
  intros store payload trace response.
  assert (Hshape : exists reads writes,
    trace = reads ++ writes
    /\ existsb isMutation reads = false
    /\ (writes = []
        \/ exists sheetTitle sheetId index V,
            ReachesMatching store payload sheetTitle sheetId index V
            /\ writes
               = [CBatchUpdate (googleSpreadSheetID payload)
                    (buildUpdateRequests sheetId
                       (extractedProjectIDs payload) V)])).
  { destruct (POST_outcomes store payload)
      as [(stage & Hstage & Hfail)
         |(sheetTitle & sheetId & index & V & Hreach)].
    - exists trace, []. rewrite app_nil_r.
      split; [reflexivity|]. split; [|now left].
      now apply (POST_step_fails Hfail).
    - unfold trace. rewrite (POST_at_matching Hreach).
      set (reqs := buildUpdateRequests sheetId _ V).
      destruct (0 <? List.length reqs);
        [destruct (batchUpdate store _ reqs)|]; cbn [snd].
      1,2: exists (readsOf payload sheetTitle index),
             [CBatchUpdate (googleSpreadSheetID payload) reqs];
           split; [reflexivity|]; split; [reflexivity|];
           right; exists sheetTitle, sheetId, index, V; now split.
      exists (readsOf payload sheetTitle index), [].
      rewrite app_nil_r. split; [reflexivity|].
      split; [reflexivity | now left]. }
  split; [exact Hshape|]. split.
  - destruct Hshape as (reads & writes & -> & Hreads & Hwrites).
    rewrite filter_app, (filter_none _ _ Hreads). cbn [app].
    destruct Hwrites as [->|(? & ? & ? & ? & _ & ->)]; cbn; lia.
  - intros stage Hfail. now apply POST_step_fails.
Qed.

Lemma C5_witness :
  StepFails Scenario.storeRefusing Scenario.payloadA Submitting
  /\ isError (fst (POST Scenario.storeRefusing Scenario.payloadA)) = true
  /\ existsb isMutation
       (removelast (snd (POST Scenario.storeRefusing Scenario.payloadA)))
     = false.
Proof.
  assert (Hfail : StepFails Scenario.storeRefusing Scenario.payloadA
                    Submitting).
  { apply submission_throws
      with (lit "Sheet1") (JVal 0%Z) 0 Scenario.columnA
           (ThrownError (lit "The caller does not have permission")).
    - reach_by_computation.
    - vm_compute. discriminate.
    - reflexivity. }
  split; [exact Hfail|].
  destruct (C5_single_final_mutation Scenario.storeRefusing
              Scenario.payloadA) as (_ & _ & Hstep).
  destruct (Hstep Submitting Hfail) as (Herr & _ & Hbefore & _).
  split; [exact Herr | exact Hbefore].
Defined.

(* ================================================================== *)
(** ** Sheet resolution *)
(* ================================================================== *)

Section SheetResolution.

Variable name : jsstring.

Lemma titleIs_entry (p : jsstring * Z) :
  titleIs name (entry p) = eqb (fst p) name.
Proof. reflexivity. Qed.

(** [find] stops at the first pair titled [name]. *)
Lemma find_first_titled (before : list (jsstring * Z)) id after :
  ~ In name (map fst before) ->
  find (titleIs name) (map entry (before ++ (name, id) :: after))
  = Some (entry (name, id)).
Proof.
  induction before as [|[t i] before IH]; cbn [map app find]; intros Hnot.
  - now rewrite titleIs_entry, eqb_refl.
  - rewrite titleIs_entry. cbn [fst map In] in *.
    destruct (eqb t name) eqn:E.
    + apply eqb_eq in E. tauto.
    + apply IH. tauto.
Qed.

Lemma find_untitled (pairs : list (jsstring * Z)) :
  ~ In name (map fst pairs) ->
  find (titleIs name) (map entry pairs) = None.
Proof.
  induction pairs as [|[t i] pairs IH]; cbn [map find]; intros Hnot.
  - reflexivity.
  - rewrite titleIs_entry. cbn [fst map In] in *.
    destruct (eqb t name) eqn:E.
    + apply eqb_eq in E. tauto.
    + apply IH. tauto.
Qed.

(** A title that occurs has a first occurrence. *)
Lemma first_titled (pairs : list (jsstring * Z)) :
  In name (map fst pairs) ->
  exists before id after,
    pairs = before ++ (name, id) :: after
    /\ ~ In name (map fst before).
Proof.
  induction pairs as [|[t i] pairs IH]; cbn [map In fst]; [tauto|].
  intros Hin.
  destruct (list_eq_dec N.eq_dec t name) as [->|Hne].
  - exists [], i, pairs. split; [reflexivity | cbn; tauto].
  - destruct IH as (before & id & after & -> & Hnot); [tauto|].
    exists ((t, i) :: before), id, after.
    split; [reflexivity|]. cbn. tauto.
Qed.

End SheetResolution.

(** Once the sheet is resolved, no later answer is the sheet-not-found
    response. *)
Lemma POST_resolved_not_sheetNotFound store payload sheets sheetTitle sheetId :
  spreadsheets_get store (googleSpreadSheetID payload) = Ok sheets ->
  checkSheet (titleOf (findSheet sheets (sheetName payload)))
    (sheetIdOf (findSheet sheets (sheetName payload)))
  = Some (sheetTitle, sheetId) ->
  fst (POST store payload) <> sheetNotFound (sheetName payload).
Proof.
  intros Hget Hcheck. run_post. rewrite Hget, Hcheck.
  destruct (values_get store _ (headerRange sheetTitle)) as [hv|t];
    [|cbn; destruct t; discriminate].
  destruct (findProjectIDColumn _) as [[index|]|t];
    [| cbn; discriminate | cbn; destruct t; discriminate].
  destruct (values_get store _ _) as [cv|t];
    [|cbn; destruct t; discriminate].
  cbn zeta. destruct (0 <? _); [|cbn; discriminate].
  destruct (batchUpdate store _ _) as [u|t]; cbn;
    [discriminate | destruct t; discriminate].
Qed.

(** The only batch a run at the matching step can submit is the one the
    loop built. *)
Lemma POST_batch_at_matching store payload sheetTitle sheetId index V :
  ReachesMatching store payload sheetTitle sheetId index V ->
  forall doc batch,
    In (CBatchUpdate doc batch) (snd (POST store payload)) ->
    batch = buildUpdateRequests sheetId (extractedProjectIDs payload) V.
Proof.
  intros Hreach doc batch. rewrite (POST_at_matching Hreach).
  destruct (0 <? _); [destruct (batchUpdate store _ _)|];
    cbn [snd readsOf]; rewrite ?in_app_iff; cbn [In]; intros Hin;
    repeat (destruct Hin as [Hin|Hin]; try discriminate Hin; try tauto);
    now inversion Hin.
Qed.

Lemma existsb_false_In {A} (f : A -> bool) (l : list A) (x : A) :
  existsb f l = false -> In x l -> f x = false.
Proof.
  intros Hnone Hin. destruct (f x) eqn:E; [|reflexivity].
  rewrite <- Hnone. symmetry. apply existsb_exists. now exists x.
Qed.

(** C6: with the sheet list of the spreadsheet given as (title,
    identifier) pairs, the answer is the sheet-not-found error exactly when
    no pair carries the requested name, and that run mutates nothing; when
    a pair carries it, the first such pair's identifier is the one the rest
    of the request works with, down to every instruction it submits. *)
Theorem C6_sheet_not_found_iff_absent :
  forall store payload pairs,
    spreadsheets_get store (googleSpreadSheetID payload)
    = Ok (Some (map entry pairs)) ->
    Forall (fun p => fst p <> []) pairs ->
    let name := sheetName payload in
    (fst (POST store payload) = sheetNotFound name
     <-> ~ In name (map fst pairs))
    /\ (fst (POST store payload) = sheetNotFound name ->
        existsb isMutation (snd (POST store payload)) = false)
    /\ (forall before id after,
           pairs = before ++ (name, id) :: after ->
           ~ In name (map fst before) ->
           (forall sheetTitle sheetId index V,
               ReachesMatching store payload sheetTitle sheetId index V ->
               sheetTitle = name /\ sheetId = JVal id)
           /\ (forall doc batch q,
                  In (CBatchUpdate doc batch) (snd (POST store payload)) ->
                  In q batch ->
                  rangeSheetId (range q) = JVal id)).
Proof.
  intros store payload pairs Hget Hwf name.
  assert (Hfound : forall before id after,
             pairs = before ++ (name, id) :: after ->
             ~ In name (map fst before) ->
             checkSheet
               (titleOf (findSheet (Some (map entry pairs)) name))
               (sheetIdOf (findSheet (Some (map entry pairs)) name))
             = Some (name, JVal id)).
  { intros before id after Hpairs Hnot. cbn [findSheet].
    rewrite Hpairs, find_first_titled by assumption. cbn.
    rewrite Forall_forall in Hwf.
    assert (Hne : name <> []).
    { apply (Hwf (name, id)). rewrite Hpairs.
      apply in_or_app. right. now left. }
    destruct name; [congruence | reflexivity]. }
  assert (Habsent : ~ In name (map fst pairs) ->
                    POST store payload
                    = (sheetNotFound name,
                       [CSpreadsheetsGet (googleSpreadSheetID payload)])).
  { intros Hnot. run_post. rewrite Hget. cbn [findSheet]. fold name.
    now rewrite find_untitled. }
  assert (Hiff : fst (POST store payload) = sheetNotFound name
                 <-> ~ In name (map fst pairs)).
  { split.
    - intros Hresp Hin.
      apply first_titled in Hin as (before & id & after & Hpairs & Hnot).
      revert Hresp. eapply POST_resolved_not_sheetNotFound; [exact Hget|].
      exact (Hfound before id after Hpairs Hnot).
    - intros Hnot. now rewrite Habsent. }
  split; [exact Hiff|]. split.
  - intros Hresp. apply Hiff in Hresp. now rewrite Habsent.
  - intros before id after Hpairs Hnot.
    assert (Hsame : forall sheetTitle sheetId index V,
               ReachesMatching store payload sheetTitle sheetId index V ->
               sheetTitle = name /\ sheetId = JVal id).
    { intros sheetTitle sheetId index V
        (sheets & hv & cv & Hget' & Hcheck & _).
      rewrite Hget in Hget'. injection Hget' as <-.
      fold name in Hcheck.
      rewrite (Hfound before id after Hpairs Hnot) in Hcheck.
      now injection Hcheck as <- <-. }
    split; [exact Hsame|].
    intros doc batch q Hin Hq.
    destruct (POST_outcomes store payload)
      as [(stage & Hstage & Hfail)
         |(sheetTitle & sheetId & index & V & Hreach)].
    + destruct (POST_step_fails Hfail) as (_ & _ & _ & Hnone).
      apply (existsb_false_In _ _ _ (Hnone Hstage)) in Hin.
      discriminate Hin.
    + rewrite (POST_batch_at_matching Hreach _ _ Hin) in Hq.
      destruct (Hsame _ _ _ _ Hreach) as [_ ->].
      rewrite buildUpdateRequests_matchedRows in Hq.
      apply in_map_iff in Hq as (r & <- & _). reflexivity.
Qed.

Lemma C6_witness :
  (fst (POST Scenario.storeA Scenario.payloadA)
   = sheetNotFound (lit "Sheet1")
   <-> ~ In (lit "Sheet1") (map fst [(lit "Sheet1", 0%Z)])).
Proof.
  refine (proj1 (@C6_sheet_not_found_iff_absent Scenario.storeA
                   Scenario.payloadA [(lit "Sheet1", 0%Z)] eq_refl _)).
  repeat constructor. discriminate.
Defined.

(* ================================================================== *)
(** ** The success response *)
(* ================================================================== *)

(** C8, as the specification words the message: refuted by scenario A,
    which completes without error, marks two rows, and answers with a
    message that is not "2 rows updated in sheet Sheet1". *)
Lemma C8_counterexample :
  isError (fst (POST Scenario.storeA Scenario.payloadA)) = false
  /\ matchedRows Scenario.columnA
       (extractedProjectIDs Scenario.payloadA) = [3; 4]
  /\ body (fst (POST Scenario.storeA Scenario.payloadA))
     <> specSuccessBody 2 (sheetName Scenario.payloadA).
Proof.
  split; [reflexivity|]. split; [reflexivity|].
  vm_compute. discriminate.
Qed.

(** C8, amended: a request that completes without error answers, with
    status 200, exactly [{success: true, message: "<N> rows were
    successfully updated in the Google Sheet: <name>."}], where [N] is the
    number of matched rows of the column read and [<name>] the requested
    sheet name. *)
Theorem C8_success_response :
  forall store payload,
    isError (fst (POST store payload)) = false ->
    exists sheetTitle sheetId index V,
      ReachesMatching store payload sheetTitle sheetId index V
      /\ fst (POST store payload)
         = {| body := SuccessBody true
                (numberToString
                   (List.length
                      (matchedRows V (extractedProjectIDs payload)))
                 ++ lit " rows were successfully updated in the Google Sheet: "
                 ++ sheetName payload ++ lit ".");
              status := 200 |}.
Proof.
  intros store payload Hok.
  destruct (POST_outcomes store payload)
    as [(stage & _ & Hfail)|(sheetTitle & sheetId & index & V & Hreach)].
  - destruct (POST_step_fails Hfail) as (Herr & _). congruence.
  - exists sheetTitle, sheetId, index, V. split; [exact Hreach|].
    revert Hok. rewrite (POST_at_matching Hreach).
    rewrite buildUpdateRequests_matchedRows, length_map.
    destruct (0 <? _); [destruct (batchUpdate store _ _) as [u|t]|];
      cbn [fst]; intros Hok; try reflexivity.
    destruct t; discriminate Hok.
Qed.

Lemma C8_witness :
  isError (fst (POST Scenario.storeA Scenario.payloadA)) = false
  /\ exists sheetTitle sheetId index V,
      ReachesMatching Scenario.storeA Scenario.payloadA
        sheetTitle sheetId index V
      /\ fst (POST Scenario.storeA Scenario.payloadA)
         = {| body := SuccessBody true
                (numberToString
                   (List.length
                      (matchedRows V
                         (extractedProjectIDs Scenario.payloadA)))
                 ++ lit " rows were successfully updated in the Google Sheet: "
                 ++ sheetName Scenario.payloadA ++ lit ".");
              status := 200 |}.
Proof.
  split; [reflexivity|].
  apply (@C8_success_response Scenario.storeA Scenario.payloadA).
  reflexivity.
Defined.

(** A refused batch update: the submission is the failing step, the
    answer is an error, and the refused call is the only mutating one. *)
Example refused_submission :
  StepFails Scenario.storeRefusing Scenario.payloadA Submitting
  /\ status (fst (POST Scenario.storeRefusing Scenario.payloadA)) = 500%Z
  /\ List.length
       (filter isMutation
          (snd (POST Scenario.storeRefusing Scenario.payloadA))) = 1.
Proof.
  split; [|split; reflexivity].
  apply submission_throws
    with (lit "Sheet1") (JVal 0%Z) 0 Scenario.columnA
         (ThrownError (lit "The caller does not have permission")).
  - reach_by_computation.
  - vm_compute. discriminate.
  - reflexivity.
Qed.

(* ================================================================== *)
(** ** The column address *)
(* ================================================================== *)

(** Up to column Z the letter computed is the column's address. *)
Lemma columnLetter_first_26 (i : nat) :
  i < 26 -> columnLetter i = columnAddress (i + 1).
Proof.
  intros Hi.
  do 26 (destruct i as [|i]; [reflexivity|]). lia.
Qed.

Lemma lettersOf_length (fuel n : nat) (acc : jsstring) :
  List.length acc <= List.length (lettersOf fuel n acc).
Proof.
  revert n acc; induction fuel as [|fuel IH]; intros [|m] acc; cbn;
    try lia.
  etransitivity; [|apply IH]. cbn. lia.
Qed.

(** From the 27th column on, an address has at least two letters, and the
    single code unit computed is not it. *)
Lemma columnLetter_beyond_Z (i : nat) :
  26 <= i -> columnLetter i <> columnAddress (i + 1).
Proof.
  intros Hi Heq. apply (f_equal (@List.length N)) in Heq.
  unfold columnAddress in Heq. replace (i + 1) with (S i) in Heq by lia.
  cbn [lettersOf columnLetter fromCharCode List.length] in Heq.
  assert (Hq : exists q, i / 26 = S q).
  { destruct (i / 26) eqn:E; [|eauto].
    apply Nat.div_small_iff in E; lia. }
  destruct Hq as [q Hq]. rewrite Hq in Heq.
  destruct i as [|i]; [lia|]. cbn [lettersOf] in Heq.
  match type of Heq with
  | _ = List.length (lettersOf ?f ?n ?acc) =>
      pose proof (lettersOf_length f n acc) as Hlen
  end.
  cbn [List.length] in Hlen. lia.
Qed.

(** C3, at the first column beyond Z: with the label in the 27th column
    (index 26) the handler computes the code unit after "Z", reads the
    range [Sheet1![:[] instead of [Sheet1!AA:AA], and the request fails. *)
Theorem C3_column_27_address :
  findProjectIDColumn Scenario.headerWide = Ok (Some 26)
  /\ columnLetter 26 = lit "["
  /\ columnAddress (26 + 1) = lit "AA"
  /\ snd (POST Scenario.storeWide Scenario.payloadA)
     = [CSpreadsheetsGet (lit "doc");
        CValuesGet (lit "doc") (lit "Sheet1!1:1");
        CValuesGet (lit "doc") (lit "Sheet1![:[")]
  /\ status (fst (POST Scenario.storeWide Scenario.payloadA)) = 500%Z.
Proof. repeat split; reflexivity. Qed.

(* ================================================================== *)
(** ** Row objects *)
(* ================================================================== *)

Section RowObjects.

Lemma getProp_setProp_same (row : RowObject) k v :
  getProp (setProp row k v) k = Some v.
Proof.
  induction row as [|[k0 w] row IH]; cbn.
  - now rewrite eqb_refl.
  - destruct (eqb k0 k) eqn:E; cbn; rewrite E; [reflexivity | exact IH].
Qed.

Lemma getProp_setProp_other (row : RowObject) k v k' :
  k' <> k -> getProp (setProp row k v) k' = getProp row k'.
Proof.
  intros Hne. induction row as [|[k0 w] row IH]; cbn.
  - apply not_eq_sym, eqb_neq in Hne. now rewrite Hne.
  - destruct (eqb k0 k) eqn:E; cbn.
    + apply eqb_eq in E. subst k0.
      apply not_eq_sym, eqb_neq in Hne. now rewrite Hne.
    + now rewrite IH.
Qed.

Lemma getProp_pushExtra_other (row : RowObject) v k' :
  k' <> parsedExtra -> getProp (pushExtra row v) k' = getProp row k'.
Proof.
  intros Hne. unfold pushExtra.
  destruct (getProp row parsedExtra) as [[s|items]|];
    now apply getProp_setProp_other.
Qed.

(** Writing a property keeps the keys in place and adds at most the
    written key, at the end. *)
Lemma keys_setProp (row : RowObject) k v :
  exists suffix,
    map fst (setProp row k v) = map fst row ++ suffix
    /\ incl suffix [k].
Proof.
  induction row as [|[k0 w] row (suffix & IH & Hincl)]; cbn.
  - exists [k]. split; [reflexivity | apply incl_refl].
  - destruct (eqb k0 k) eqn:E; cbn.
    + exists []. rewrite app_nil_r. split; [reflexivity|].
      intros x [].
    + exists suffix. split; [now rewrite IH | exact Hincl].
Qed.

Lemma keys_setProp_new (row : RowObject) k v :
  ~ In k (map fst row) ->
  map fst (setProp row k v) = map fst row ++ [k].
Proof.
  induction row as [|[k0 w] row IH]; cbn; intros Hnot.
  - reflexivity.
  - destruct (eqb k0 k) eqn:E.
    + apply eqb_eq in E. tauto.
    + cbn. rewrite IH; tauto.
Qed.

Lemma keys_pushExtra (row : RowObject) v :
  exists suffix,
    map fst (pushExtra row v) = map fst row ++ suffix
    /\ incl suffix [parsedExtra].
Proof.
  unfold pushExtra.
  destruct (getProp row parsedExtra) as [[s|items]|];
    apply keys_setProp.
Qed.

(** The keys of a row object are header fields the line reaches, or
    [__parsed_extra]; they come after the keys already there. *)
Lemma keys_processRow (fields line : list jsstring) (row : RowObject) :
  exists suffix,
    map fst (processRow fields line row) = map fst row ++ suffix
    /\ forall k, In k suffix -> In k fields \/ k = parsedExtra.
Proof.
  revert fields row; induction line as [|v line IH]; intros fields row;
    cbn [processRow].
  - exists []. rewrite app_nil_r. split; [reflexivity | intros k []].
  - set (field := match fields with [] => parsedExtra | f :: _ => f end).
    assert (Hfield : In field fields \/ field = parsedExtra)
      by (destruct fields; cbn; auto).
    set (row' := if eqb field parsedExtra then pushExtra row v
                 else setProp row field (VString v)).
    assert (Hstep : exists s1,
               map fst row' = map fst row ++ s1
               /\ forall k, In k s1 -> In k fields \/ k = parsedExtra).
    { unfold row'. destruct (eqb field parsedExtra).
      - destruct (keys_pushExtra row v) as (s1 & Hs1 & Hincl).
        exists s1. split; [exact Hs1|]. intros k Hk.
        apply Hincl in Hk as [<-|[]]. now right.
      - destruct (keys_setProp row field (VString v))
          as (s1 & Hs1 & Hincl).
        exists s1. split; [exact Hs1|]. intros k Hk.
        apply Hincl in Hk as [<-|[]]. exact Hfield. }
    destruct Hstep as (s1 & Hs1 & Hk1).
    destruct (IH (tl fields) row') as (s2 & Hs2 & Hk2).
    exists (s1 ++ s2). rewrite Hs2, Hs1, app_assoc.
    split; [reflexivity|]. intros k Hk.
    apply in_app_or in Hk as [Hk|Hk]; [now apply Hk1|].
    apply Hk2 in Hk as [Hk|Hk]; [left | now right].
    destruct fields; [destruct Hk | now right].
Qed.

Lemma find_app_none {A} (p : A -> bool) (l l' : list A) :
  (forall x, In x l -> p x = false) -> find p (l ++ l') = find p l'.
Proof.
  induction l as [|a l IH]; cbn; intros Hnone; [reflexivity|].
  rewrite (Hnone a) by now left. apply IH. intros x Hx.
  apply Hnone. now right.
Qed.

Lemma find_all_false {A} (p : A -> bool) (l : list A) :
  (forall x, In x l -> p x = false) -> find p l = None.
Proof.
  intros Hnone. rewrite <- (app_nil_r l). now rewrite find_app_none.
Qed.

End RowObjects.

(* ================================================================== *)
(** ** The extractor *)
(* ================================================================== *)

Section Extractor.

Lemma isProjectIDKey_trim (key : jsstring) :
  isProjectIDKey key = true <-> trim key = projectIDLabel.
Proof. apply eqb_eq. Qed.

Lemma isProjectIDKey_not (key : jsstring) :
  isProjectIDKey key = false <-> trim key <> projectIDLabel.
Proof. apply eqb_neq. Qed.

Lemma parsedExtra_not_label : isProjectIDKey parsedExtra = false.
Proof. reflexivity. Qed.

Lemma label_key_not_extra (key : jsstring) :
  isProjectIDKey key = true -> eqb key parsedExtra = false.
Proof.
  intros Hkey. apply eqb_neq. intros ->.
  rewrite parsedExtra_not_label in Hkey. discriminate.
Qed.

(** The first key of a row object that reads as the label is the first
    such header field, provided the line reaches its column. *)
Lemma find_key_processRow before key after line (row : RowObject) :
  (forall f, In f before -> isProjectIDKey f = false) ->
  isProjectIDKey key = true ->
  (forall k, In k (map fst row) -> isProjectIDKey k = false) ->
  List.length before < List.length line ->
  find isProjectIDKey
    (map fst (processRow (before ++ key :: after) line row))
  = Some key.
Proof.
  intros Hbefore Hkey.
  revert line row; induction before as [|f before IH];
    intros [|v line] row Hrow Hlen; cbn [List.length] in Hlen; try lia.
  - cbn [app processRow tl]. rewrite (label_key_not_extra _ Hkey).
    destruct (keys_processRow after line (setProp row key (VString v)))
      as (suffix & -> & _).
    rewrite keys_setProp_new.
    + rewrite <- app_assoc, find_app_none by exact Hrow.
      cbn. now rewrite Hkey.
    + intros Hin. apply Hrow in Hin. congruence.
  - cbn [app processRow tl]. apply IH.
    + intros f' Hf'. apply Hbefore. now right.
    + assert (Hf : isProjectIDKey f = false) by (apply Hbefore; now left).
      intros k Hk. destruct (eqb f parsedExtra).
      * destruct (keys_pushExtra row v) as (s & Hs & Hincl).
        rewrite Hs in Hk. apply in_app_or in Hk as [Hk|Hk]; [auto|].
        apply Hincl in Hk as [<-|[]]. apply parsedExtra_not_label.
      * destruct (keys_setProp row f (VString v)) as (s & Hs & Hincl).
        rewrite Hs in Hk. apply in_app_or in Hk as [Hk|Hk]; [auto|].
        apply Hincl in Hk as [<-|[]]. exact Hf.
    + lia.
Qed.

(** A key that is no header field is not written by [processRow]. *)
Lemma getProp_processRow_absent fields line (row : RowObject) key :
  key <> parsedExtra -> ~ In key fields ->
  getProp (processRow fields line row) key = getProp row key.
Proof.
  intros Hextra. revert fields row; induction line as [|v line IH];
    intros fields row Hnot; cbn [processRow]; [reflexivity|].
  rewrite IH by (destruct fields; cbn in *; tauto).
  destruct fields as [|f fields]; cbn [eqb].
  - rewrite eqb_refl. now apply getProp_pushExtra_other.
  - destruct (eqb f parsedExtra).
    + now apply getProp_pushExtra_other.
    + apply getProp_setProp_other. cbn in Hnot. intros ->. tauto.
Qed.

(** Under a field that names one column only, a row object holds that
    column's cell, when the line has one. *)
Lemma getProp_processRow_at before key after line (row : RowObject) :
  key <> parsedExtra -> ~ In key before -> ~ In key after ->
  getProp (processRow (before ++ key :: after) line row) key
  = if List.length before <? List.length line
    then Some (VString (nth (List.length before) line []))
    else getProp row key.
Proof.
  intros Hextra Hbefore Hafter.
  revert line row; induction before as [|f before IH];
    intros [|v line] row; try reflexivity.
  - cbn [app processRow tl List.length nth].
    apply eqb_neq in Hextra. rewrite Hextra.
    rewrite getProp_processRow_absent by (try apply eqb_neq; assumption).
    apply getProp_setProp_same.
  - cbn [app processRow tl List.length nth].
    rewrite IH by (cbn in Hbefore; tauto).
    change (S (List.length before) <? S (List.length line))
      with (List.length before <? List.length line).
    destruct (List.length before <? List.length line); [reflexivity|].
    destruct (eqb f parsedExtra).
    + now apply getProp_pushExtra_other.
    + apply getProp_setProp_other. cbn in Hbefore. intros ->. tauto.
Qed.

Lemma trim_nil : trim [] = [].
Proof. reflexivity. Qed.

Lemma cellOf_processRow before key after line :
  key <> parsedExtra -> ~ In key before -> ~ In key after ->
  cellOf key (processRow (before ++ key :: after) line [])
  = trim (nth (List.length before) line []).
Proof.
  intros Hextra Hbefore Hafter. unfold cellOf.
  rewrite getProp_processRow_at by assumption.
  destruct (Nat.ltb_spec (List.length before) (List.length line)).
  - cbn [valueTruthy toString].
    now destruct (nth (List.length before) line []).
  - cbn [getProp]. now rewrite nth_overflow by lia.
Qed.

End Extractor.

(** C7, as stated: refuted by a CSV whose header is [id] and which has no
    data line; no field reads as the label, yet the extractor fails with
    the empty-input error, not the header-not-found one. *)
Lemma C7_counterexample :
  (forall f, In f (csvFields Scenario.csvWrongHeaderNoRows) ->
             trim f <> projectIDLabel)
  /\ extractProjectIDs Scenario.csvWrongHeaderNoRows = emptyInput
  /\ extractProjectIDs Scenario.csvWrongHeaderNoRows <> headerNotFound.
Proof.
  split; [|split].
  - intros f [<-|[]]. vm_compute. discriminate.
  - reflexivity.
  - vm_compute. discriminate.
Qed.

(** C7, amended: for every CSV in which no field's trimmed name is the
    label, the extractor fails with the header-not-found error when there
    is at least one data line, and with the empty-input error when there
    is none. *)
Theorem C7_header_not_found :
  forall csv,
    (forall f, In f (csvFields csv) -> trim f <> projectIDLabel) ->
    (dataLines csv <> [] -> extractProjectIDs csv = headerNotFound)
    /\ (dataLines csv = [] -> extractProjectIDs csv = emptyInput).
Proof.
  intros csv Hfields. unfold extractProjectIDs, parse.
  destruct (dataLines csv) as [|line0 rest]; (split; [|easy]);
    intros Hlines; [congruence|].
  cbn [map complete].
  rewrite find_all_false; [reflexivity|].
  intros k Hk.
  destruct (keys_processRow (csvFields csv) line0 []) as (suffix & Hs & Hin).
  rewrite Hs in Hk. cbn [map app] in Hk.
  apply Hin in Hk as [Hk| ->].
  - now apply isProjectIDKey_not, Hfields.
  - apply parsedExtra_not_label.
Qed.

Lemma C7_witness :
  (forall f, In f (csvFields Scenario.csvWrongHeader) ->
             trim f <> projectIDLabel)
  /\ dataLines Scenario.csvWrongHeader <> []
  /\ extractProjectIDs Scenario.csvWrongHeader = headerNotFound.
Proof.
  assert (Hfields : forall f, In f (csvFields Scenario.csvWrongHeader) ->
                              trim f <> projectIDLabel).
  { intros f [<-|[]]. vm_compute. discriminate. }
  assert (Hlines : dataLines Scenario.csvWrongHeader <> [])
    by (vm_compute; discriminate).
  split; [exact Hfields|]. split; [exact Hlines|].
  exact (proj1 (C7_header_not_found Scenario.csvWrongHeader Hfields) Hlines).
Defined.

(** C2, as stated: refuted by a CSV made of the label's header alone;
    the extractor does not return the (empty) list of values but fails
    with the empty-input error. *)
Lemma C2_counterexample :
  (exists f, In f (csvFields Scenario.csvHeaderOnly)
             /\ trim f = projectIDLabel)
  /\ extractProjectIDs Scenario.csvHeaderOnly = emptyInput
  /\ extractProjectIDs Scenario.csvHeaderOnly <> Resolve [].
Proof.
  split; [|split].
  - exists projectIDLabel. split; [now left | reflexivity].
  - reflexivity.
  - vm_compute. discriminate.
Qed.

(** C2, amended: for every CSV whose header has a field reading as the
    label after trimming (the first such field, whose name no later column
    repeats): with no data line the extractor fails with the empty-input
    error; with data lines of which the first reaches that column, it
    returns exactly the trimmed, non-empty values of that column, in line
    order, a line without a cell in that column contributing an empty
    value that is left out. *)
Theorem C2_extracts_column :
  forall csv before key after,
    csvFields csv = before ++ key :: after ->
    (forall f, In f before -> trim f <> projectIDLabel) ->
    trim key = projectIDLabel ->
    ~ In key after ->
    (dataLines csv = [] -> extractProjectIDs csv = emptyInput)
    /\ (forall line0 rest,
           dataLines csv = line0 :: rest ->
           List.length before < List.length line0 ->
           extractProjectIDs csv
           = Resolve
               (filter truthy
                  (map (fun line =>
                          trim (nth (List.length before) line []))
                     (dataLines csv)))).
Proof.
  intros csv before key after Hfields Hbefore Hkey Hafter.
  split.
  { intros Hlines. unfold extractProjectIDs, parse. now rewrite Hlines. }
  intros line0 rest Hlines Hreach.
  assert (Hk : isProjectIDKey key = true) by now apply isProjectIDKey_trim.
  assert (Hextra : key <> parsedExtra)
    by now apply eqb_neq, label_key_not_extra.
  assert (Hnot : ~ In key before).
  { intros Hin. now apply Hbefore in Hin. }
  unfold extractProjectIDs, parse. rewrite Hfields, Hlines.
  cbn [map complete].
  rewrite find_key_processRow; trivial.
  - assert (Htruthy : truthy key = true).
    { destruct key; [discriminate Hk | reflexivity]. }
    rewrite Htruthy, map_map. cbn [map].
    rewrite cellOf_processRow by assumption.
    do 3 f_equal. apply map_ext. intros line.
    now apply cellOf_processRow.
  - intros f Hf. now apply isProjectIDKey_not, Hbefore.
  - intros k [].
Qed.

Lemma C2_witness :
  dataLines Scenario.csvRagged
  = [[lit "a"; lit " ABC "]; [lit "b"]; [lit "c"; lit "  "];
     [lit "d"; lit "DEF"; lit "extra"]]
  /\ extractProjectIDs Scenario.csvRagged
     = Resolve [lit "ABC"; lit "DEF"].
Proof.
  split; [reflexivity|].
  refine (proj2 (@C2_extracts_column Scenario.csvRagged [lit "name"]
                   (lit " " ++ projectIDLabel ++ lit " ") []
                   eq_refl _ eq_refl _)
            [lit "a"; lit " ABC "] _ eq_refl _).
  - intros f [<-|[]]. vm_compute. discriminate.
  - intros [].
  - cbn. lia.
Defined.

(** When the first data line stops before the label's column, its row
    object lacks the key and the extractor reports the header as missing,
    although the header has it and a later line has the cell. *)
Example short_first_line :
  extractProjectIDs Scenario.csvShortFirst = headerNotFound.
Proof. reflexivity. Qed.

(** End-to-end scenario A: the identifiers of the CSV are those of the
    request that marks rows 3 and 4. *)
Example scenario_A :
  extractProjectIDs Scenario.csvA
  = Resolve (extractedProjectIDs Scenario.payloadA)
  /\ map (fun q => endRowIndex (range q))
       (buildUpdateRequests (JVal 0%Z)
          (extractedProjectIDs Scenario.payloadA) Scenario.columnA)
     = [Some 3%Z; Some 4%Z].
Proof. split; reflexivity. Qed.

(* ================================================================== *)
(** ** Guards at the edges of the model *)
(* ================================================================== *)

(** A nullish header cell before the label makes [findIndex]'s callback
    throw; the header row is read without optional chaining. *)
Example nullish_header_cell :
  findProjectIDColumn [None; Some projectIDLabel] = Throw trimOfUndefined.
Proof. reflexivity. Qed.

(** The guard [!sheetTitle] also turns down a sheet whose title is the
    empty string, and lets identifier 0 through. *)
Example title_guard :
  checkSheet (JVal []) (JVal 0%Z) = None
  /\ checkSheet (JVal (lit "Sheet1")) (JVal 0%Z)
     = Some (lit "Sheet1", JVal 0%Z).
Proof. split; reflexivity. Qed.

(* ================================================================== *)
(** ** Every run follows one path *)
(* ================================================================== *)


(** The sheet the handler goes on with bears the requested name. *)
Lemma checkSheet_title sheets name sheetTitle sheetId :
  checkSheet (titleOf (findSheet sheets name))
    (sheetIdOf (findSheet sheets name)) = Some (sheetTitle, sheetId) ->
  sheetTitle = name.
Proof.
  unfold findSheet. destruct sheets as [l|]; [|discriminate].
  destruct (find (titleIs name) l) as [s|] eqn:Hfind; [|discriminate].
  apply find_some in Hfind as [_ Htitle].
  destruct s as [[[[| |t] i]|]]; cbn in *; try discriminate.
  apply eqb_eq in Htitle. subst t.
  destruct i; try discriminate;
    destruct (truthy name); intros H; inversion H; reflexivity.
Qed.

(* ================================================================== *)
(** ** The header lookup *)
(* ================================================================== *)

Section HeaderLookup.

Lemma findIndexFrom_at i pre s post :
  Forall unlabelled pre -> trim s = projectIDLabel ->
  findIndexFrom i (pre ++ Some s :: post) = Ok (Some (i + List.length pre)).
Proof.
  intros Hpre Hs. revert i.
  induction Hpre as [|c pre (s' & -> & Hc) _ IH]; intros i; cbn.
  - rewrite Hs, eqb_refl. f_equal. f_equal. lia.
  - apply eqb_neq in Hc. rewrite Hc, IH. f_equal. f_equal. lia.
Qed.

Lemma findIndexFrom_nullish i pre post :
  Forall unlabelled pre ->
  findIndexFrom i (pre ++ None :: post) = Throw trimOfUndefined.
Proof.
  intros Hpre. revert i.
  induction Hpre as [|c pre (s' & -> & Hc) _ IH]; intros i; cbn.
  - reflexivity.
  - apply eqb_neq in Hc. now rewrite Hc, IH.
Qed.

Lemma findIndexFrom_unlabelled i row :
  Forall unlabelled row -> findIndexFrom i row = Ok None.
Proof.
  intros Hrow. revert i.
  induction Hrow as [|c row (s' & -> & Hc) _ IH]; intros i; cbn.
  - reflexivity.
  - apply eqb_neq in Hc. now rewrite Hc, IH.
Qed.

(** A header row holds no label, or a first label, or a nullish cell
    before any label. *)
Lemma header_row_cases (row : list Cell) :
  Forall unlabelled row
  \/ (exists pre s post,
         row = pre ++ Some s :: post
         /\ Forall unlabelled pre /\ trim s = projectIDLabel)
  \/ (exists pre post,
         row = pre ++ None :: post /\ Forall unlabelled pre).
Proof.
  induction row as [|[s|] row IH].
  - left. constructor.
  - destruct (list_eq_dec N.eq_dec (trim s) projectIDLabel) as [Hs|Hs].
    + right. left. exists [], s, row. repeat split; trivial.
    + assert (Hc : unlabelled (Some s)) by (exists s; auto).
      destruct IH as [Hrow|[(pre & s' & post & -> & Hpre & Hs')
                           |(pre & post & -> & Hpre)]].
      * left. now constructor.
      * right. left. exists (Some s :: pre), s', post.
        repeat split; trivial. now constructor.
      * right. right. exists (Some s :: pre), post.
        split; trivial. now constructor.
  - right. right. exists [], row. split; trivial.
Qed.

End HeaderLookup.

(** The three outcomes of the header lookup, told apart by the row. *)
Lemma findProjectIDColumn_outcomes :
  forall headerRow : list Cell,
    (forall k,
        findProjectIDColumn headerRow = Ok (Some k)
        <-> exists pre s post,
              headerRow = pre ++ Some s :: post
              /\ List.length pre = k
              /\ Forall unlabelled pre
              /\ trim s = projectIDLabel)
    /\ (findProjectIDColumn headerRow = Ok None
        <-> Forall unlabelled headerRow)
    /\ (forall t,
           findProjectIDColumn headerRow = Throw t
           <-> t = trimOfUndefined
               /\ exists pre post,
                    headerRow = pre ++ None :: post
                    /\ Forall unlabelled pre).
Proof.
  intros headerRow. unfold findProjectIDColumn. unfold Cell, jsstring in *.
  destruct (header_row_cases headerRow)
    as [Hrow|[(pre & s & post & Hsplit & Hpre & Hs)
             |(pre & post & Hsplit & Hpre)]].
  - pose proof (@findIndexFrom_unlabelled 0 _ Hrow) as Hres. unfold Cell, jsstring in *.
    rewrite Hres. split; [|split].
    + intros k. split; [discriminate|].
      intros (pre & s & post & -> & _ & _ & Hs).
      apply Forall_app in Hrow as [_ Hrow].
      inversion Hrow as [|? ? (s' & E & Hne) _]. inversion E. congruence.
    + tauto.
    + intros t. split; [discriminate|].
      intros (_ & pre & post & -> & _).
      apply Forall_app in Hrow as [_ Hrow].
      inversion Hrow as [|? ? (s' & E & _) _]. discriminate E.
  - pose proof (@findIndexFrom_at 0 pre s post Hpre Hs) as Hres. unfold Cell, jsstring in *.
    rewrite <- Hsplit in Hres. rewrite Hres. cbn [Nat.add].
    split; [|split].
    + intros k. split.
      * intros E. injection E as <-. exists pre, s, post. auto.
      * intros (pre' & s' & post' & Hsplit' & <- & Hpre' & Hs').
        pose proof (@findIndexFrom_at 0 pre' s' post' Hpre' Hs') as Hres'. unfold Cell, jsstring in *.
        rewrite <- Hsplit', Hres in Hres'. exact Hres'.
    + split; [discriminate|]. intros Hrow.
      rewrite (@findIndexFrom_unlabelled 0 _ Hrow) in Hres. discriminate.
    + intros t. split; [discriminate|].
      intros (_ & pre' & post' & Hsplit' & Hpre').
      pose proof (@findIndexFrom_nullish 0 pre' post' Hpre') as Hres'. unfold Cell, jsstring in *.
      rewrite <- Hsplit', Hres in Hres'. discriminate.
  - pose proof (@findIndexFrom_nullish 0 pre post Hpre) as Hres. unfold Cell, jsstring in *.
    rewrite <- Hsplit in Hres. rewrite Hres. split; [|split].
    + intros k. split; [discriminate|].
      intros (pre' & s' & post' & Hsplit' & _ & Hpre' & Hs').
      pose proof (@findIndexFrom_at 0 pre' s' post' Hpre' Hs') as Hres'. unfold Cell, jsstring in *.
      rewrite <- Hsplit', Hres in Hres'. discriminate.
    + split; [discriminate|]. intros Hrow.
      rewrite (@findIndexFrom_unlabelled 0 _ Hrow) in Hres. discriminate.
    + intros t. split.
      * intros E. injection E as <-. split; [reflexivity|].
        exists pre, post. auto.
      * intros (-> & _). reflexivity.
Qed.

(** X1: the header lookup returns the position of the first cell that
    reads as the label, provided every cell before it is a string; it
    returns -1 exactly when every cell is a string that does not read as
    the label; and it throws exactly when a nullish cell comes before
    any label. *)
Theorem header_lookup_outcomes :
  forall headerRow : list Cell,
    (forall k,
        findProjectIDColumn headerRow = Ok (Some k)
        <-> exists pre s post,
              headerRow = pre ++ Some s :: post
              /\ List.length pre = k
              /\ Forall unlabelled pre
              /\ trim s = projectIDLabel)
    /\ (findProjectIDColumn headerRow = Ok None
        <-> Forall unlabelled headerRow)
    /\ (forall t,
           findProjectIDColumn headerRow = Throw t
           <-> t = trimOfUndefined
               /\ exists pre post,
                    headerRow = pre ++ None :: post
                    /\ Forall unlabelled pre).
Proof. exact findProjectIDColumn_outcomes. Qed.

(** X2: once the sheet is resolved and its first row is read, the
    answer is the column-not-found error exactly when no cell of that row
    reads as the label (every cell a string); an empty or missing first
    row is such a row.  That run has made the two reads and nothing
    else. *)
Theorem column_not_found_iff_unlabelled :
  forall store payload sheets sheetTitle sheetId headerValues,
    spreadsheets_get store (googleSpreadSheetID payload) = Ok sheets ->
    checkSheet (titleOf (findSheet sheets (sheetName payload)))
      (sheetIdOf (findSheet sheets (sheetName payload)))
    = Some (sheetTitle, sheetId) ->
    values_get store (googleSpreadSheetID payload) (headerRange sheetTitle)
    = Ok headerValues ->
    (fst (POST store payload) = columnNotFound
     <-> Forall unlabelled (firstRowOrEmpty headerValues))
    /\ (fst (POST store payload) = columnNotFound ->
        snd (POST store payload)
        = [CSpreadsheetsGet (googleSpreadSheetID payload);
           CValuesGet (googleSpreadSheetID payload)
             (headerRange (sheetName payload))]).
Proof.
  intros store payload sheets sheetTitle sheetId hv Hget Hcheck Hhead.
  pose proof (checkSheet_title _ _ Hcheck) as Htitle.
  destruct (findProjectIDColumn_outcomes (firstRowOrEmpty hv))
    as (_ & Hnone & _).
  run_post. rewrite Hget, Hcheck, Hhead.
  destruct (findProjectIDColumn (firstRowOrEmpty hv))
    as [[index|]|t] eqn:Hfind.
  - assert (Hnot : ~ Forall unlabelled (firstRowOrEmpty hv)).
    { intros H. apply Hnone in H. discriminate H. }
    destruct (values_get store _ (columnRange sheetTitle _)) as [cv|t];
      [cbn zeta; destruct (0 <? _);
       [destruct (batchUpdate store _ _) as [u|t]|]|];
      cbn [fst snd]; (split; [split; [|tauto]|]);
      try (destruct t); intros H; discriminate H.
  - cbn [fst snd]. subst sheetTitle. split; [|reflexivity].
    split; [intros _; now apply Hnone | reflexivity].
  - assert (Hnot : ~ Forall unlabelled (firstRowOrEmpty hv)).
    { intros H. apply Hnone in H. discriminate H. }
    cbn [fst snd]. split; [split; [|tauto]|];
      destruct t; intros H; discriminate H.
Qed.

Lemma column_not_found_witness :
  fst (POST Cases.storeNoLabel Scenario.payloadA) = columnNotFound
  <-> Forall unlabelled
        (firstRowOrEmpty (Some [Some [Some (lit "id"); Some (lit "name")]])).
Proof.
  refine (proj1 (@column_not_found_iff_unlabelled Cases.storeNoLabel
                   Scenario.payloadA _ (lit "Sheet1") (JVal 0%Z) _
                   eq_refl eq_refl eq_refl)).
Defined.

(* ================================================================== *)
(** ** What every run reports and whom it calls *)
(* ================================================================== *)

Section RunFacts.

Variable store : Remote.
Variable payload : Payload.




End RunFacts.



(* ================================================================== *)
(** ** Trimming *)
(* ================================================================== *)

Section Trimming.

Lemma trimStart_head s c r :
  trimStart s = c :: r -> isWhiteSpace c = false.
Proof.
  induction s as [|x s IH]; cbn; [discriminate|].
  destruct (isWhiteSpace x) eqn:E; [exact IH|].
  intros H. injection H as <- _. exact E.
Qed.

Lemma trimStart_fixed s :
  (forall c r, s = c :: r -> isWhiteSpace c = false) -> trimStart s = s.
Proof.
  destruct s as [|c r]; [reflexivity|]. intros H. cbn.
  now rewrite (H c r eq_refl).
Qed.

Lemma trimStart_suffix s : exists pre, s = pre ++ trimStart s.
Proof.
  induction s as [|x s (pre & IH)]; cbn.
  - now exists [].
  - destruct (isWhiteSpace x).
    + exists (x :: pre). cbn. now rewrite <- IH.
    + now exists [].
Qed.

Lemma trimStart_app a b :
  trimStart (a ++ b) = if blank a then trimStart b else trimStart a ++ b.
Proof.
  induction a as [|x a IH]; cbn; [reflexivity|].
  destruct (isWhiteSpace x); cbn; [exact IH | reflexivity].
Qed.

Lemma trimStart_blank s : blank s = true -> trimStart s = [].
Proof.
  induction s as [|x s IH]; cbn; [reflexivity|].
  destruct (isWhiteSpace x); cbn; [exact IH | discriminate].
Qed.

Lemma blank_trimStart s : trimStart s = [] -> blank s = true.
Proof.
  induction s as [|x s IH]; cbn; [reflexivity|].
  destruct (isWhiteSpace x); cbn; [exact IH | discriminate].
Qed.

Lemma blank_rev s : blank (rev s) = blank s.
Proof.
  unfold blank. induction s as [|x s IH]; cbn; [reflexivity|].
  rewrite forallb_app, IH. cbn. rewrite andb_true_r. apply andb_comm.
Qed.

Lemma trimEnd_app_blank s ws :
  blank ws = true -> trimEnd (s ++ ws) = trimEnd s.
Proof.
  intros Hws. unfold trimEnd. rewrite rev_app_distr, trimStart_app.
  now rewrite blank_rev, Hws.
Qed.

(** White space around a string does not change what [trim] returns. *)
Lemma trim_padded ws s ws' :
  blank ws = true -> blank ws' = true -> trim (ws ++ s ++ ws') = trim s.
Proof.
  intros Hws Hws'. unfold trim.
  rewrite trimStart_app, Hws, trimStart_app.
  destruct (blank s) eqn:Hs.
  - now rewrite (trimStart_blank _ Hws'), (trimStart_blank _ Hs).
  - now apply trimEnd_app_blank.
Qed.

(** A trimmed string starts and ends with code units that are not white
    space, so trimming it again changes nothing. *)
Lemma trim_idempotent s : trim (trim s) = trim s.
Proof.
  unfold trim, trimEnd.
  set (t := trimStart s). set (u := trimStart (rev t)).
  assert (Hu : trimStart u = u).
  { apply trimStart_fixed. intros c r E. now apply trimStart_head with (rev t) r. }
  assert (Hr : trimStart (rev u) = rev u).
  { apply trimStart_fixed. intros c r E.
    destruct (trimStart_suffix (rev t)) as (pre & Hpre). fold u in Hpre.
    apply (f_equal (@rev N)) in Hpre.
    rewrite rev_involutive, rev_app_distr, E in Hpre.
    now apply trimStart_head with s (r ++ rev pre). }
  now rewrite Hr, rev_involutive, Hu.
Qed.

Lemma trimmedIdentifier_trim s :
  truthy (trim s) = true -> trimmedIdentifier (trim s) = true.
Proof.
  intros Ht. unfold trimmedIdentifier.
  now rewrite Ht, trim_idempotent, eqb_refl.
Qed.

End Trimming.

(* ================================================================== *)
(** ** More on the column letter and on matching *)
(* ================================================================== *)

(** X5: the letter computed for a header position is the column's
    address exactly for the first 26 positions. *)
Theorem columnLetter_correct_iff :
  forall i, columnLetter i = columnAddress (i + 1) <-> i < 26.
Proof.
  intros i. split.
  - intros Heq. destruct (Nat.lt_ge_cases i 26) as [Hlt|Hge]; [exact Hlt|].
    now apply columnLetter_beyond_Z in Hge.
  - apply columnLetter_first_26.
Qed.

Lemma includes_incl (xs ys : list jsstring) x :
  incl xs ys -> includes xs x = true -> includes ys x = true.
Proof.
  intros Hincl Hin. apply includes_In. apply Hincl. now apply includes_In.
Qed.

(** X6: with more identifiers in the list, every instruction built
    before is still built. *)
Theorem more_identifiers_more_rows :
  forall sheetId (ids ids' : list jsstring) V,
    incl ids ids' ->
    incl (buildUpdateRequests sheetId ids V)
      (buildUpdateRequests sheetId ids' V).
Proof.
  intros sheetId ids ids' V Hincl q.
  rewrite !buildUpdateRequests_matchedRows, !in_map_iff.
  intros (r & <- & Hr). exists r. split; [reflexivity|].
  unfold matchedRows in *. rewrite filter_In in *.
  destruct Hr as [Hseq Hm]. split; [exact Hseq|].
  unfold rowMatches in *. apply andb_true_iff in Hm as [Ht Hi].
  apply andb_true_iff. split; [exact Ht|].
  now apply includes_incl with ids.
Qed.

Lemma more_identifiers_witness :
  incl [lit "ABC"] [lit "ABC"; lit "DEF"]
  /\ incl (buildUpdateRequests (JVal 0%Z) [lit "ABC"] Scenario.columnA)
       (buildUpdateRequests (JVal 0%Z) [lit "ABC"; lit "DEF"]
          Scenario.columnA).
Proof.
  assert (Hincl : incl [lit "ABC"] [lit "ABC"; lit "DEF"]).
  { intros x [<-|[]]. now left. }
  split; [exact Hincl|].
  exact (@more_identifiers_more_rows (JVal 0%Z) _ _ Scenario.columnA Hincl).
Defined.

(** X7: only identifiers that are non-empty and carry no white space at
    either end can match: the others may be dropped from the list without
    changing any instruction.  The handler trims the cells, not the
    identifiers. *)
Theorem untrimmed_identifiers_never_match :
  forall sheetId (ids : list jsstring) V,
    buildUpdateRequests sheetId ids V
    = buildUpdateRequests sheetId (filter trimmedIdentifier ids) V.
Proof.
  intros sheetId ids V. rewrite !buildUpdateRequests_matchedRows. f_equal.
  unfold matchedRows. apply filter_ext. intros r. unfold rowMatches.
  set (v := trim _).
  destruct (truthy v) eqn:Ht; [cbn [andb] | reflexivity].
  assert (Hv : trimmedIdentifier v = true)
    by now apply trimmedIdentifier_trim.
  destruct (includes ids v) eqn:Hi.
  - symmetry. apply includes_In. apply filter_In. split; [|exact Hv].
    now apply includes_In.
  - destruct (includes (filter trimmedIdentifier ids) v) eqn:Hf; trivial.
    apply includes_In, filter_In in Hf as [Hf _].
    apply includes_In in Hf. congruence.
Qed.

Lemma firstCell_pad (before after : list Row) cell cell' rest r :
  trim cell' = trim cell ->
  trim (match firstCell (before ++ Some (Some cell' :: rest) :: after) r
        with Some c => c | None => [] end)
  = trim (match firstCell (before ++ Some (Some cell :: rest) :: after) r
          with Some c => c | None => [] end).
Proof.
  intros Htrim. unfold firstCell.
  destruct (Nat.lt_ge_cases (r - 1) (List.length before)) as [Hlt|Hge].
  - now rewrite !nth_error_app1 by exact Hlt.
  - rewrite !nth_error_app2 by exact Hge.
    destruct (r - 1 - List.length before) as [|n]; cbn [nth_error];
      [exact Htrim | reflexivity].
Qed.

(** X8: white space around a cell of the column does not matter: with a
    cell padded by white space on either side the handler builds the same
    instructions. *)
Theorem padded_cell_same_instructions :
  forall sheetId ids (before after : list Row) ws cell ws' rest,
    blank ws = true -> blank ws' = true ->
    buildUpdateRequests sheetId ids
      (before ++ Some (Some (ws ++ cell ++ ws') :: rest) :: after)
    = buildUpdateRequests sheetId ids
        (before ++ Some (Some cell :: rest) :: after).
Proof.
  intros sheetId ids before after ws cell ws' rest Hws Hws'.
  rewrite !buildUpdateRequests_matchedRows. f_equal.
  unfold matchedRows. rewrite !length_app. cbn [List.length].
  apply filter_ext. intros r. unfold rowMatches.
  f_equal; f_equal; apply firstCell_pad; now apply trim_padded.
Qed.

Lemma padded_cell_witness :
  blank (lit "  ") = true /\ blank (lit " ") = true
  /\ buildUpdateRequests (JVal 0%Z) [lit "ABC"; lit "DEF"]
       Cases.columnPadded
     = buildUpdateRequests (JVal 0%Z) [lit "ABC"; lit "DEF"]
         Scenario.columnA.
Proof.
  split; [reflexivity|]. split; [reflexivity|].
  exact (@padded_cell_same_instructions (JVal 0%Z) [lit "ABC"; lit "DEF"]
           [Some [Some projectIDLabel]; Scenario.cellRow "XYZ"]
           [Scenario.cellRow "DEF"; Scenario.cellRow "GHI"]
           (lit "  ") (lit "ABC") (lit " ") [] eq_refl eq_refl).
Defined.

(* ================================================================== *)
(** ** More on the extractor *)
(* ================================================================== *)

Section ExtractorFacts.

Lemma cellOf_trimmed key (row : RowObject) :
  truthy (cellOf key row) = true -> trimmedIdentifier (cellOf key row) = true.
Proof.
  unfold cellOf. destruct (getProp row key) as [v|]; [|discriminate].
  destruct (valueTruthy v); [|discriminate].
  apply trimmedIdentifier_trim.
Qed.

Lemma In_keys_setProp (row : RowObject) k v :
  In k (map fst (setProp row k v)).
Proof.
  induction row as [|[k0 w] row IH]; cbn; [now left|].
  destruct (eqb k0 k) eqn:E; cbn; [|now right].
  left. now apply eqb_eq.
Qed.

Lemma In_keys_pushExtra (row : RowObject) v :
  In parsedExtra (map fst (pushExtra row v)).
Proof.
  unfold pushExtra.
  destruct (getProp row parsedExtra) as [[s|items]|]; apply In_keys_setProp.
Qed.

(** Keys written once stay. *)
Lemma keys_processRow_keep fields line (row : RowObject) k :
  In k (map fst row) -> In k (map fst (processRow fields line row)).
Proof.
  intros Hk. destruct (keys_processRow fields line row) as (suffix & -> & _).
  apply in_or_app. now left.
Qed.

(** Every header field the line reaches becomes a key. *)
Lemma keys_processRow_has fields line (row : RowObject) f :
  In f (firstn (List.length line) fields) ->
  In f (map fst (processRow fields line row)).
Proof.
  revert fields row; induction line as [|v line IH]; intros fields row;
    cbn [List.length firstn processRow]; [intros []|].
  destruct fields as [|f0 fields]; cbn [firstn tl]; [intros []|].
  intros [<-|Hin]; [|now apply IH].
  apply keys_processRow_keep.
  destruct (eqb f0 parsedExtra) eqn:E.
  - apply eqb_eq in E. subst f0. apply In_keys_pushExtra.
  - apply In_keys_setProp.
Qed.

(** The keys of a row object are header fields the line reaches, or
    [__parsed_extra], or keys that were there. *)
Lemma keys_processRow_reach fields line (row : RowObject) k :
  In k (map fst (processRow fields line row)) ->
  In k (map fst row)
  \/ In k (firstn (List.length line) fields)
  \/ k = parsedExtra.
Proof.
  revert fields row; induction line as [|v line IH]; intros fields row;
    cbn [List.length processRow]; [now left|].
  intros Hk. apply IH in Hk as [Hk|[Hk|Hk]].
  - destruct fields as [|f0 fields]; cbn [eqb] in Hk.
    + rewrite eqb_refl in Hk.
      destruct (keys_pushExtra row v) as (s & Hs & Hincl).
      rewrite Hs in Hk. apply in_app_or in Hk as [Hk|Hk]; [now left|].
      apply Hincl in Hk as [<-|[]]. now right; right.
    + destruct (eqb f0 parsedExtra).
      * destruct (keys_pushExtra row v) as (s & Hs & Hincl).
        rewrite Hs in Hk. apply in_app_or in Hk as [Hk|Hk]; [now left|].
        apply Hincl in Hk as [<-|[]]. now right; right.
      * destruct (keys_setProp row f0 (VString v)) as (s & Hs & Hincl).
        rewrite Hs in Hk. apply in_app_or in Hk as [Hk|Hk]; [now left|].
        apply Hincl in Hk as [<-|[]]. right; left. cbn. now left.
  - right; left. destruct fields as [|f0 fields]; cbn in *.
    + now rewrite firstn_nil in Hk.
    + now right.
  - now right; right.
Qed.

End ExtractorFacts.

Lemma complete_resolves (data : list RowObject) ids :
  complete data = Resolve ids ->
  exists key, ids = filter truthy (map (cellOf key) data).
Proof.
  unfold complete. destruct data as [|first data']; [discriminate|].
  destruct (find isProjectIDKey (map fst first)) as [key|]; [|discriminate].
  destruct (truthy key); [|discriminate].
  intros H. injection H as <-. now exists key.
Qed.

(** X9: whatever the CSV, the identifiers the extractor resolves with are
    non-empty and carry no white space at either end, and there is at
    most one per data line. *)
Theorem extracted_identifiers_are_trimmed :
  forall csv ids,
    extractProjectIDs csv = Resolve ids ->
    Forall (fun id => trimmedIdentifier id = true) ids
    /\ List.length ids <= List.length (dataLines csv).
Proof.
  intros csv ids Hres. unfold extractProjectIDs, parse in Hres.
  apply complete_resolves in Hres as (key & ->). split.
  - apply Forall_forall. intros id Hid.
    apply filter_In in Hid as [Hid Ht].
    apply in_map_iff in Hid as (row & <- & _).
    now apply cellOf_trimmed.
  - etransitivity; [apply filter_length_le|].
    now rewrite !length_map.
Qed.

Lemma extracted_identifiers_witness :
  extractProjectIDs Scenario.csvRagged = Resolve [lit "ABC"; lit "DEF"]
  /\ Forall (fun id => trimmedIdentifier id = true) [lit "ABC"; lit "DEF"].
Proof.
  assert (H : extractProjectIDs Scenario.csvRagged
              = Resolve [lit "ABC"; lit "DEF"]) by reflexivity.
  split; [exact H|].
  exact (proj1 (extracted_identifiers_are_trimmed Scenario.csvRagged H)).
Defined.

(** X10: with data lines, the extractor resolves exactly when one of the
    header fields that the first data line reaches reads as the label;
    otherwise it fails with the header-not-found error, also when the
    label stands in a column further right that only later lines
    reach. *)
Theorem resolves_iff_first_line_reaches_label :
  forall csv line0 rest,
    dataLines csv = line0 :: rest ->
    ((exists ids, extractProjectIDs csv = Resolve ids)
     <-> exists f, In f (firstn (List.length line0) (csvFields csv))
                   /\ trim f = projectIDLabel)
    /\ ((forall f, In f (firstn (List.length line0) (csvFields csv)) ->
                   trim f <> projectIDLabel) ->
        extractProjectIDs csv = headerNotFound).
Proof.
  intros csv line0 rest Hlines. unfold extractProjectIDs, parse.
  rewrite Hlines. cbn [map complete].
  set (first := processRow (csvFields csv) line0 []).
  destruct (find isProjectIDKey (map fst first)) as [key|] eqn:Hfind.
  - apply find_some in Hfind as [Hin Hkey].
    assert (Htruthy : truthy key = true).
    { destruct key; [discriminate Hkey | reflexivity]. }
    rewrite Htruthy.
    assert (Hreach : In key (firstn (List.length line0) (csvFields csv))).
    { apply keys_processRow_reach in Hin as [[]|[Hin| ->]]; [exact Hin|].
      rewrite parsedExtra_not_label in Hkey. discriminate. }
    split.
    + split; [|eauto]. intros _. exists key.
      split; [exact Hreach | now apply isProjectIDKey_trim].
    + intros Hnone. apply Hnone in Hreach.
      now apply isProjectIDKey_trim in Hkey.
  - split; [|reflexivity]. split.
    + intros (ids & H). discriminate H.
    + intros (f & Hf & Hlabel).
      apply (keys_processRow_has _ _ []) in Hf. fold first in Hf.
      apply (find_none _ _ Hfind) in Hf.
      apply isProjectIDKey_trim in Hlabel. congruence.
Qed.

Lemma resolves_iff_witness :
  dataLines Scenario.csvShortFirst = [[lit "a"]; [lit "b"; lit "ABC"]]
  /\ In projectIDLabel (csvFields Scenario.csvShortFirst)
  /\ extractProjectIDs Scenario.csvShortFirst = headerNotFound.
Proof.
  split; [reflexivity|]. split; [cbn; tauto|].
  refine (proj2 (@resolves_iff_first_line_reaches_label
                   Scenario.csvShortFirst [lit "a"]
                   [[lit "b"; lit "ABC"]] eq_refl) _).
  intros f [<-|[]]. vm_compute. discriminate.
Defined.

(* ================================================================== *)
(** ** The upload form *)
(* ================================================================== *)

Section FormFacts.



(** The rejections of the [complete] callback. *)
Lemma complete_rejects data message :
  complete data = Reject message ->
  Reject message = emptyInput \/ Reject message = headerNotFound.
Proof.
  unfold complete. destruct data as [|first data']; [intros <-; now left|].
  destruct (find isProjectIDKey (map fst first)) as [key|];
    [destruct (truthy key)|]; try discriminate; intros <-; now right.
Qed.

End FormFacts.


(** X12: when the URL field is edited while the file is parsed, a failed
    extraction puts back the URL the submit handler closed over (the form
    is rebuilt from that state and the edit is lost), whereas a successful
    one keeps the edited URL (the update starts from the current
    state). *)
Theorem edits_during_parsing :
  forall formData f w value outcome,
    Form.file formData = Some f ->
    Form.checkFileFormat f = true ->
    let w1 := fst (Form.sendFormStart formData w) in
    let w2 := Form.handleUrlChange (Form.current w1) value w1 in
    let after :=
      Form.current (fst (Form.sendFormResume formData outcome w2)) in
    snd (Form.sendFormStart formData w) = Form.Awaiting f
    /\ match outcome with
       | Reject message =>
           Form.url after = Form.url formData
           /\ Form.file after = None
           /\ Form.error after = Some message
       | Resolve ids =>
           Form.url after = value
           /\ Form.file after = Some f
           /\ Form.projectIDList after = Some ids
       end.
Proof.
  intros formData f w value outcome Hfile Hcheck.
  unfold Form.sendFormStart. rewrite Hfile, Hcheck. cbn.
  split; [reflexivity|]. destruct outcome; cbn; rewrite ?Hfile; auto.
Qed.

Lemma edits_during_parsing_witness :
  Form.checkFileFormat (Cases.fileOf Scenario.csvWrongHeader) = true
  /\ Form.url
       (Form.current
          (fst (Form.sendFormResume
                  (Cases.formWith (Cases.fileOf Scenario.csvWrongHeader))
                  headerNotFound
                  (Form.handleUrlChange
                     (Form.current
                        (fst (Form.sendFormStart
                                (Cases.formWith
                                   (Cases.fileOf Scenario.csvWrongHeader))
                                (Cases.worldWith
                                   (Cases.fileOf Scenario.csvWrongHeader)))))
                     (lit "https://example.com/other")
                     (fst (Form.sendFormStart
                             (Cases.formWith
                                (Cases.fileOf Scenario.csvWrongHeader))
                             (Cases.worldWith
                                (Cases.fileOf Scenario.csvWrongHeader))))))))
     = lit "https://example.com/target".
Proof.
  split; [reflexivity|].
  exact (proj1 (proj2 (@edits_during_parsing
                         (Cases.formWith
                            (Cases.fileOf Scenario.csvWrongHeader))
                         (Cases.fileOf Scenario.csvWrongHeader)
                         (Cases.worldWith
                            (Cases.fileOf Scenario.csvWrongHeader))
                         (lit "https://example.com/other")
                         headerNotFound eq_refl eq_refl))).
Defined.

(** X13: a submission that does not get as far as scheduling the send
    leaves the form without a file, so the submit button is disabled
    until another file is chosen; the send is scheduled exactly when a
    file is selected, passes the format check, and the extraction
    resolves.  In every case the URL is left as the handler saw it. *)
Theorem failed_submission_drops_file :
  forall formData w,
    let out := Form.sendForm formData w in
    (snd out = true
     <-> exists f ids,
           Form.file formData = Some f
           /\ Form.checkFileFormat f = true
           /\ Form.extractFromFile f = Resolve ids)
    /\ (snd out = false ->
        Form.file (Form.current (fst out)) = None
        /\ Form.submitDisabled (Form.current (fst out)) = true)
    /\ Form.url (Form.current (fst out)) = Form.url formData.
Proof.
  intros formData w. unfold Form.sendForm, Form.sendFormStart.
  destruct (Form.file formData) as [f|] eqn:Hfile.
  - destruct (Form.checkFileFormat f) eqn:Hcheck; cbn [negb].
    + destruct (Form.extractFromFile f) as [ids|message] eqn:Hext; cbn.
      * split; [|split; [discriminate | reflexivity]].
        split; [intros _; exists f, ids; auto | reflexivity].
      * split; [|split; [auto | reflexivity]].
        split; [discriminate|].
        intros (f' & ids & Hf & _ & Hres). injection Hf as <-.
        rewrite Hext in Hres. discriminate.
    + cbn. split; [|split; [auto | reflexivity]].
      split; [discriminate|].
      intros (f' & ids & Hf & Hc & _). injection Hf as <-. congruence.
  - cbn. rewrite ?Hfile. split; [|split; [auto | reflexivity]].
    split; [discriminate|]. intros (f & ids & Hf & _). discriminate Hf.
Qed.

(** X14: of the failures of a submission only the wrong format is shown
    in red.  For a file that passes the check and parses, the message is
    shown in green whether the extraction resolved or was rejected (no
    data line, no column named by the label): the rejection messages do
    not contain "Error". *)
Theorem rejections_are_shown_green :
  forall formData f w,
    Form.file formData = Some f ->
    (Form.checkFileFormat f = false ->
     Form.messageColour (Form.current (fst (Form.sendForm formData w)))
     = Some Form.Red)
    /\ (forall csv,
           Form.checkFileFormat f = true ->
           Form.contents f = inl csv ->
           Form.messageColour
             (Form.current (fst (Form.sendForm formData w)))
           = Some Form.Green).
Proof.
  intros formData f w Hfile.
  unfold Form.sendForm, Form.sendFormStart. rewrite Hfile. split.
  - intros ->. reflexivity.
  - intros csv -> Hcsv. cbn [negb].
    unfold Form.extractFromFile. rewrite Hcsv. unfold extractProjectIDs.
    destruct (complete (parse csv)) as [ids|message] eqn:Hres.
    + reflexivity.
    + apply complete_rejects in Hres as [Hres|Hres];
        injection Hres as ->; reflexivity.
Qed.

Lemma rejections_are_shown_green_witness :
  Form.extractFromFile (Cases.fileOf Scenario.csvWrongHeader)
  = headerNotFound
  /\ Form.messageColour
       (Form.current
          (fst (Form.sendForm
                  (Cases.formWith (Cases.fileOf Scenario.csvWrongHeader))
                  (Cases.worldWith (Cases.fileOf Scenario.csvWrongHeader)))))
     = Some Form.Green.
Proof.
  split; [reflexivity|].
  exact (proj2 (@rejections_are_shown_green
                  (Cases.formWith (Cases.fileOf Scenario.csvWrongHeader))
                  (Cases.fileOf Scenario.csvWrongHeader)
                  (Cases.worldWith (Cases.fileOf Scenario.csvWrongHeader))
                  eq_refl)
           Scenario.csvWrongHeader eq_refl eq_refl).
Defined.

(** A wrong-format file and an edit during parsing, worked out. *)
Example form_runs :
  Form.checkFileFormat Cases.fileXlsx = false
  /\ Form.messageColour
       (Form.current
          (fst (Form.sendForm (Cases.formWith Cases.fileXlsx)
                  (Cases.worldWith Cases.fileXlsx))))
     = Some Form.Red
  /\ Form.url
       (Form.current
          (fst (Form.sendFormResume
                  (Cases.formWith (Cases.fileOf Scenario.csvWrongHeader))
                  headerNotFound
                  (Cases.worldEdited
                     (Cases.fileOf Scenario.csvWrongHeader)))))
     = lit "https://example.com/target".
Proof. repeat split; reflexivity. Qed.
